(** * codlocker-assets: the asset resolver and its HTTP consumer

  A shallow embedding of [internal/storage/storage.go] (the local
  storage backend: [Get] and [Exists]) and of the asset handler of
  [main.go], together with the parts of the Go standard library they
  call ([strings], [path/filepath], [os], [io], [mime], [net/http]).
  The rest of the program follows: the levels and printers of
  [internal/logger], the request logger of [internal/http/middleware],
  the key file of [internal/featureflags], and the offline gate, the
  health handlers and the level loop of [main.go].

  Go strings are byte sequences; they are modelled by [string], whose
  characters are 8-bit.  A [[]byte] is a [list byte].  A function that
  returns [(T, error)] returns a pair whose second component is [None]
  for the nil error.  A computation reads the world outside the process
  (working directory, file system, environment, flag, log level) and
  records the calls it makes, so that "no file is opened" is a statement
  about its trace.

  The definitions come first: the packages, then the notions used to
  state the properties.  The facts follow: strings and path elements,
  [filepath.Clean] (its byte loop is the element loop), the shape of
  resolved paths, [Get] and [Exists], and the properties of the
  resolver and of the handler; then the whole run of [Get] and [Exists]
  with its calls, and the properties of the storage, of the handler, of
  the logger, of the middleware and of the key file. *)

From Stdlib Require Import List Bool Arith Lia.
From Stdlib.Strings Require Import Ascii String Byte.
From Stdlib.Numbers Require Import DecimalString.
Import ListNotations.

Local Open Scope string_scope.
Local Open Scope list_scope.

(* ================================================================= *)
(** ** Package [strings] *)

Module GoStrings.

(** [strings.HasPrefix(s, prefix)]. *)
Definition HasPrefix (s pre : string) : bool := String.prefix pre s.

(** [strings.Contains(s, substr)]: [substr] starts at some index of [s]. *)
Fixpoint Contains (s substr : string) : bool :=
  if HasPrefix s substr then true
  else match s with
       | EmptyString => false
       | String _ rest => Contains rest substr
       end.

(** The slice [s[n:]]. *)
Fixpoint Drop (n : nat) (s : string) : string :=
  match n, s with
  | S n', String _ rest => Drop n' rest
  | _, _ => s
  end.

(** [strings.TrimPrefix(s, prefix)]. *)
Definition TrimPrefix (s pre : string) : string :=
  if HasPrefix s pre then Drop (String.length pre) s else s.

(** [strings.Split(s, "/")]: the pieces between separators; never empty. *)
Fixpoint Split (s : string) (sep : ascii) : list string :=
  match s with
  | EmptyString => [EmptyString]
  | String c rest =>
      if Ascii.eqb c sep then EmptyString :: Split rest sep
      else match Split rest sep with
           | e :: es => String c e :: es
           | [] => [String c EmptyString]
           end
  end.

(** [strings.Join(elems, sep)]. *)
Definition Join (elems : list string) (sep : string) : string :=
  String.concat sep elems.

End GoStrings.

(* ================================================================= *)
(** ** Errors, the operating system and the effects of a call *)

Module Os.

(** The error numbers the file system calls of this program can meet. *)
Inductive Errno : Type :=
| ENOENT | EACCES | ENOTDIR | EISDIR | EIO | ELOOP | ENAMETOOLONG | EMFILE.

Definition Errno_Error (e : Errno) : string :=
  match e with
  | ENOENT => "no such file or directory"
  | EACCES => "permission denied"
  | ENOTDIR => "not a directory"
  | EISDIR => "is a directory"
  | EIO => "input/output error"
  | ELOOP => "too many levels of symbolic links"
  | ENAMETOOLONG => "file name too long"
  | EMFILE => "too many open files"
  end.

(** Go [error] values: the ones [fmt.Errorf] builds, without and with a
    wrapped error ([%w]), and the ones package [os] returns. *)
Inductive error : Type :=
| errorString (s : string)
| wrapError (msg : string) (err : error)
| PathError (Op Path : string) (Err : Errno)
| SyscallError (Syscall : string) (Err : Errno).

(** The method [Error()]. *)
Definition Error (e : error) : string :=
  match e with
  | errorString s => s
  | wrapError msg _ => msg
  | PathError op path err => op ++ " " ++ path ++ ": " ++ Errno_Error err
  | SyscallError call err => call ++ ": " ++ Errno_Error err
  end.

(** [fmt.Errorf(msg)] and [fmt.Errorf(msg + "%w", err)]. *)
Definition Errorf (msg : string) : error := errorString msg.
Definition Errorf_w (msg : string) (err : error) : error :=
  wrapError (msg ++ Error err) err.

(** [os.IsNotExist]: looks inside the errors of package [os] only. *)
Definition IsNotExist (err : error) : bool :=
  match err with
  | PathError _ _ ENOENT | SyscallError _ ENOENT => true
  | _ => false
  end.

(** What the file system holds under a name, as the calls of this program
    can observe it.  An absent entry is [StatFails ENOENT]. *)
Inductive Entry : Type :=
| StatFails (e : Errno)                        (* stat and open both fail *)
| OpenFails (e : Errno)                        (* stat succeeds, open fails *)
| ReadFails (partial : list byte) (e : Errno)  (* open succeeds, read fails *)
| Regular (content : list byte).               (* a readable file *)

Inductive Level : Type := Debug | Info | Warn | Error_.

Definition Level_rank (l : Level) : nat :=
  match l with Debug => 0 | Info => 1 | Warn => 2 | Error_ => 3 end.

(** Everything outside the process that a request reads: the working
    directory ([os.Getwd]), the file system, the environment, the table of
    [mime.TypeByExtension], the feature flag and the logger's level. *)
Record World : Type := {
  cwd : string + Errno;
  files : string -> Entry;
  ASSETS_BASE_PATH : string;
  mimeTypes : string -> string;
  ImageStorageLocation : string;
  logLevel : Level
}.

(** The calls a computation makes, in order. *)
Inductive Event : Type :=
| Sys_getwd
| Sys_open (name : string)
| Sys_read (name : string)
| Sys_close (name : string)
| Sys_stat (name : string)
| Log_print (line : string).

(** A computation reads the world and records its calls: its result is the
    first component, its trace the second. *)
Definition IO (A : Type) : Type := World -> A * list Event.

Definition ret {A} (a : A) : IO A := fun _ => (a, []).

Definition bind {A B} (m : IO A) (k : A -> IO B) : IO B :=
  fun w =>
    let (a, t1) := m w in
    let (b, t2) := k a w in
    (b, t1 ++ t2).

Definition emit (e : Event) : IO unit := fun _ => (tt, [e]).
Definition ask : IO World := fun w => (w, []).

Declare Scope io_scope.
Delimit Scope io_scope with io.
Notation "x <- m ;; k" := (bind m (fun x => k))
  (at level 61, m at next level, right associativity) : io_scope.
Notation "' pat <- m ;; k" := (bind m (fun x => match x with pat => k end))
  (at level 61, pat pattern, m at next level, right associativity) : io_scope.
Notation "m ;; k" := (bind m (fun _ => k))
  (at level 61, right associativity) : io_scope.

Local Open Scope io_scope.

(** [os.Getwd]. *)
Definition Getwd : IO (string * option error) :=
  emit Sys_getwd ;;
  w <- ask ;;
  ret (match cwd w with
       | inl dir => (dir, None)
       | inr e => ("", Some (SyscallError "getwd" e))
       end).

(** An open file: the name it was opened under. *)
Record File : Type := { name : string }.

(** [os.Open]. *)
Definition Open (path : string) : IO (File * option error) :=
  emit (Sys_open path) ;;
  w <- ask ;;
  ret (match files w path with
       | StatFails e | OpenFails e => ({| name := "" |}, Some (PathError "open" path e))
       | ReadFails _ _ | Regular _ => ({| name := path |}, None)
       end).

(** [io.ReadAll] on an open file. *)
Definition ReadAll (f : File) : IO (list byte * option error) :=
  emit (Sys_read (name f)) ;;
  w <- ask ;;
  ret (match files w (name f) with
       | Regular content => (content, None)
       | ReadFails partial e => (partial, Some (PathError "read" (name f) e))
       | StatFails e | OpenFails e => ([], Some (PathError "read" (name f) e))
       end).

(** The method [Close] of an open file. *)
Definition Close (f : File) : IO unit := emit (Sys_close (name f)).

(** [os.Stat]; the file information is not used by this program. *)
Definition Stat (path : string) : IO (option error) :=
  emit (Sys_stat path) ;;
  w <- ask ;;
  ret (match files w path with
       | StatFails e => Some (PathError "stat" path e)
       | _ => None
       end).

(** [os.Getenv("ASSETS_BASE_PATH")]. *)
Definition Getenv_ASSETS_BASE_PATH : IO string :=
  w <- ask ;; ret (ASSETS_BASE_PATH w).

End Os.

(* ================================================================= *)
(** ** Package [path/filepath] (Unix) *)

Module Filepath.
Import GoStrings Os.
Local Open Scope io_scope.

Definition Separator : ascii := "/"%char.

(** [filepath.IsAbs]: on Unix, the path begins with the separator. *)
Definition IsAbs (path : string) : bool := HasPrefix path "/".

(** [os.IsPathSeparator]. *)
Definition IsPathSeparator (c : ascii) : bool := Ascii.eqb c Separator.

(** [r == n || os.IsPathSeparator(path[r])], for the rest [path[r:]]. *)
Definition elementEnds (rest : string) : bool :=
  match rest with
  | EmptyString => true
  | String c _ => IsPathSeparator c
  end.

(** The [..] case of [Clean] when it can backtrack: [out.w--], then
    [for out.w > dotdot && !os.IsPathSeparator(out.index(out.w)) { out.w-- }].
    The buffer [out] is kept last byte first. *)
Fixpoint backtrack (out : list ascii) (dotdot : nat) : list ascii :=
  match out with
  | [] => []
  | c :: out' =>
      if (dotdot <? List.length out')%nat && negb (IsPathSeparator c)
      then backtrack out' dotdot
      else out'
  end.

(** "add slash if needed", before a real path element. *)
Definition addSlash (rooted : bool) (out : list ascii) : list ascii :=
  if (rooted && negb (List.length out =? 1)%nat)
     || (negb rooted && negb (List.length out =? 0)%nat)
  then Separator :: out else out.

(** The loop [for r < n] of [filepath.Clean] on the rest [path[r:]] of the
    path: [out] is the buffer written so far, [dotdot] the index where [..]
    must stop, [copying] is true inside the copy of a real element. *)
Fixpoint cleanLoop (rooted copying : bool) (path : string) (out : list ascii)
  (dotdot : nat) : list ascii :=
  match path with
  | EmptyString => out
  | String c rest =>
      if copying then
        if IsPathSeparator c then cleanLoop rooted false rest out dotdot
        else cleanLoop rooted true rest (c :: out) dotdot
      else if IsPathSeparator c then
        (* empty path element *)
        cleanLoop rooted false rest out dotdot
      else if Ascii.eqb c "."%char && elementEnds rest then
        (* . element *)
        cleanLoop rooted false rest out dotdot
      else
        match rest with
        | String c2 rest2 =>
            if Ascii.eqb c "."%char && Ascii.eqb c2 "."%char && elementEnds rest2
            then
              (* .. element: remove to last separator *)
              if (dotdot <? List.length out)%nat then
                (* can backtrack *)
                cleanLoop rooted false rest2 (backtrack out dotdot) dotdot
              else if negb rooted then
                (* cannot backtrack, but not rooted, so append .. element *)
                let out1 :=
                  if (0 <? List.length out)%nat then Separator :: out else out in
                let out2 := "."%char :: "."%char :: out1 in
                cleanLoop rooted false rest2 out2 (List.length out2)
              else cleanLoop rooted false rest2 out dotdot
            else
              (* real path element *)
              cleanLoop rooted true rest (c :: addSlash rooted out) dotdot
        | EmptyString =>
            cleanLoop rooted true rest (c :: addSlash rooted out) dotdot
        end
  end.

(** [filepath.Clean] (Unix): the empty path is [.]; a rooted path starts
    the buffer with the separator; an empty buffer is [.]. *)
Definition Clean (path : string) : string :=
  match path with
  | EmptyString => "."
  | String c rest =>
      let out :=
        if IsPathSeparator c then cleanLoop true false rest [Separator] 1
        else cleanLoop false false path [] 0 in
      match out with
      | [] => "."
      | _ => string_of_list_ascii (rev out)
      end
  end.

(** [filepath.Join(elem...)]: leading empty elements are ignored, the rest
    is joined with the separator and cleaned. *)
Fixpoint Join (elem : list string) : string :=
  match elem with
  | [] => ""
  | e :: rest =>
      if e =? "" then Join rest else Clean (GoStrings.Join elem "/")
  end.

(** The loop of [filepath.Ext], from the last byte backwards: [before] is
    what is left of the index, last byte first, [suffix] what is right
    of it. *)
Fixpoint ext_loop (before : list ascii) (suffix : string) : string :=
  match before with
  | [] => ""
  | c :: before' =>
      if Ascii.eqb c Separator then ""
      else if Ascii.eqb c "."%char then String c suffix
      else ext_loop before' (String c suffix)
  end.

(** [filepath.Ext]: the suffix beginning at the final dot of the final
    element of [path], empty when that element has no dot. *)
Definition Ext (path : string) : string :=
  ext_loop (rev (list_ascii_of_string path)) "".

(** [filepath.Abs] (Unix): an absolute path is cleaned; a relative one is
    joined to the working directory, and the call fails when
    [os.Getwd] does. *)
Definition Abs (path : string) : IO (string * option error) :=
  if IsAbs path then ret (Clean path, None)
  else
    '(wd, err) <- Getwd ;;
    match err with
    | Some err => ret ("", Some err)
    | None => ret (Join [wd; path], None)
    end.

End Filepath.

(* ================================================================= *)
(** ** Package [internal/storage] *)

Module Storage.
Import GoStrings Os.
Local Open Scope io_scope.

(** The interface [Storage]: a value of it carries its two methods. *)
Record Storage : Type := {
  Get : string -> IO (list byte * option error);
  Exists : string -> IO bool
}.

Record LocalStorage : Type := { basePath : string }.

Definition NewLocalStorage (basePath : string) : LocalStorage :=
  {| basePath := basePath |}.

(** The three errors [Get] makes itself. *)
Definition ErrTraversal : error := Errorf "invalid path: path traversal detected".
Definition ErrOutside : error := Errorf "invalid path: outside base directory".
Definition ErrNotFound : error := Errorf "file not found".

(** [(s *LocalStorage) Get(path)]. *)
Definition LocalStorage_Get (s : LocalStorage) (path : string)
  : IO (list byte * option error) :=
  let cleanPath := Filepath.Clean path in
  if Contains cleanPath ".." then ret ([], Some ErrTraversal)
  else
    let fullPath := Filepath.Join [basePath s; cleanPath] in
    '(absBase, err) <- Filepath.Abs (basePath s) ;;
    match err with
    | Some err => ret ([], Some (Errorf_w "failed to resolve base path: " err))
    | None =>
        '(absPath, err) <- Filepath.Abs fullPath ;;
        match err with
        | Some err => ret ([], Some (Errorf_w "failed to resolve file path: " err))
        | None =>
            if negb (HasPrefix absPath absBase) then ret ([], Some ErrOutside)
            else
              '(file, err) <- Open fullPath ;;
              match err with
              | Some err =>
                  if IsNotExist err then ret ([], Some ErrNotFound)
                  else ret ([], Some (Errorf_w "failed to open file: " err))
              | None =>
                  r <- ReadAll file ;;
                  Close file ;;
                  ret r
              end
        end
    end.

(** [(s *LocalStorage) Exists(path)]. *)
Definition LocalStorage_Exists (s : LocalStorage) (path : string) : IO bool :=
  let cleanPath := Filepath.Clean path in
  if Contains cleanPath ".." then ret false
  else
    let fullPath := Filepath.Join [basePath s; cleanPath] in
    '(absBase, err) <- Filepath.Abs (basePath s) ;;
    match err with
    | Some _ => ret false
    | None =>
        '(absPath, err) <- Filepath.Abs fullPath ;;
        match err with
        | Some _ => ret false
        | None =>
            if negb (HasPrefix absPath absBase) then ret false
            else
              err <- Stat fullPath ;;
              ret (match err with None => true | Some _ => false end)
        end
    end.

(** [*LocalStorage] implements [Storage]. *)
Definition LocalStorage_Storage (s : LocalStorage) : Storage :=
  {| Get := LocalStorage_Get s; Exists := LocalStorage_Exists s |}.

End Storage.

(* ================================================================= *)
(** ** Packages [internal/logger] and [internal/featureflags] *)

Module Logger.
Import Os.
Local Open Scope io_scope.

(** [Debugf] and [Warnf] print when the current level allows it; the
    argument is the formatted message (the time stamp is left out). *)
Definition Debugf (msg : string) : IO unit :=
  w <- ask ;;
  if (Level_rank (logLevel w) <=? Level_rank Debug)%nat
  then emit (Log_print ("[DEBUG] " ++ msg)) else ret tt.

Definition Warnf (msg : string) : IO unit :=
  w <- ask ;;
  if (Level_rank (logLevel w) <=? Level_rank Warn)%nat
  then emit (Log_print ("[WARN ] " ++ msg)) else ret tt.

End Logger.

Module Featureflags.
Import Os.
Local Open Scope io_scope.

(** [featureflags.Values().ImageStorageLocation.GetValue(nil)]. *)
Definition ImageStorageLocation_GetValue : IO string :=
  w <- ask ;; ret (ImageStorageLocation w).

End Featureflags.

(* ================================================================= *)
(** ** Packages [mime] and [net/http] *)

Module Mime.
Import Os.
Local Open Scope io_scope.

(** [mime.TypeByExtension]: the system's table; the empty string when
    the extension is unknown. *)
Definition TypeByExtension (ext : string) : IO string :=
  w <- ask ;; ret (mimeTypes w ext).

End Mime.

Module Http.

Definition StatusOK : nat := 200.
Definition StatusNotFound : nat := 404.

(** What a handler has written to its [http.ResponseWriter]: the header
    map, the status once it is written, and the body. *)
Record ResponseWriter : Type := {
  Header : list (string * string);
  Status : option nat;
  Body : list byte
}.

Definition NewRecorder : ResponseWriter :=
  {| Header := []; Status := None; Body := [] |}.

Definition Header_Del (key : string) (h : list (string * string)) :=
  filter (fun kv => negb (fst kv =? key)) h.

Definition Header_Set (key value : string) (h : list (string * string)) :=
  Header_Del key h ++ [(key, value)].

Definition SetHeader (key value : string) (w : ResponseWriter) : ResponseWriter :=
  {| Header := Header_Set key value (Header w); Status := Status w; Body := Body w |}.

Definition DelHeader (key : string) (w : ResponseWriter) : ResponseWriter :=
  {| Header := Header_Del key (Header w); Status := Status w; Body := Body w |}.

(** [w.WriteHeader(code)]: the first call decides the status. *)
Definition WriteHeader (code : nat) (w : ResponseWriter) : ResponseWriter :=
  {| Header := Header w;
     Status := match Status w with None => Some code | st => st end;
     Body := Body w |}.

(** [w.Write(data)]: writes the status 200 first when none was written. *)
Definition Write (data : list byte) (w : ResponseWriter) : ResponseWriter :=
  let w' := WriteHeader StatusOK w in
  {| Header := Header w'; Status := Status w'; Body := Body w' ++ data |}.

(** [http.Error(w, error, code)]: a plain-text reply, the message
    followed by a line feed. *)
Definition Error (w : ResponseWriter) (error : string) (code : nat)
  : ResponseWriter :=
  let w := DelHeader "Content-Length" w in
  let w := SetHeader "Content-Type" "text/plain; charset=utf-8" w in
  let w := SetHeader "X-Content-Type-Options" "nosniff" w in
  let w := WriteHeader code w in
  let body := list_byte_of_string (error ++ String "010" "") in
  Write body w.

End Http.

(* ================================================================= *)
(** ** Package [main]: the asset handler *)

Module Main.
Import GoStrings Os Storage.
Local Open Scope io_scope.

(** The slice expression [data[:hi]]; [None] is the run-time panic
    "slice bounds out of range". *)
Definition slice_to (data : list byte) (hi : nat) : option (list byte) :=
  if (hi <=? List.length data)%nat then Some (firstn hi data) else None.

(** The condition of the content sniffing,
    [len(data) > 4 && (string(data[:4]) == "<svg" || string(data[:5]) == "<?xml")],
    with the short-circuit evaluation of [&&] and [||]. *)
Definition looksLikeSVG (data : list byte) : option bool :=
  if (4 <? List.length data)%nat then
    match slice_to data 4 with
    | None => None
    | Some p4 =>
        if string_of_list_byte p4 =? "<svg" then Some true
        else match slice_to data 5 with
             | None => None
             | Some p5 => Some (string_of_list_byte p5 =? "<?xml")
             end
    end
  else Some false.

(** The content type of a reply, from the type [contentType] found for the
    extension and the bytes read; [None] is a panic. *)
Definition detectContentType (contentType : string) (data : list byte)
  : option string :=
  match looksLikeSVG data with
  | None => None
  | Some true => Some "image/svg+xml"
  | Some false =>
      if contentType =? "" then Some "application/octet-stream"
      else Some contentType
  end.

(** How a handler ends: it returns, or it panics. *)
Inductive Outcome : Type :=
| Returned (w : Http.ResponseWriter)
| Panicked.

(** [assetsBasePath], computed once in [main]. *)
Definition assetsBasePath : IO string :=
  v <- Getenv_ASSETS_BASE_PATH ;;
  ret (if v =? "" then "./assets" else v).

(** The choice of the storage backend from the flag. *)
Definition selectStore (assetsBasePath storageLocation : string) : IO Storage :=
  if storageLocation =? "bucket" then
    Logger.Warnf "bucket storage not yet implemented, falling back to local" ;;
    ret (LocalStorage_Storage (NewLocalStorage assetsBasePath))
  else if storageLocation =? "local" then
    ret (LocalStorage_Storage (NewLocalStorage assetsBasePath))
  else
    ret (LocalStorage_Storage (NewLocalStorage assetsBasePath)).

(** What the handler does with the result of [store.Get]. *)
Definition reply (w : Http.ResponseWriter) (assetPath : string)
  (got : list byte * option error) : IO Outcome :=
  let (data, err) := got in
  match err with
  | Some err =>
      Logger.Debugf ("asset not found: " ++ assetPath ++ " (" ++ Error err ++ ")") ;;
      ret (Returned (Http.Error w "not found" Http.StatusNotFound))
  | None =>
      contentType <- Mime.TypeByExtension (Filepath.Ext assetPath) ;;
      match detectContentType contentType data with
      | None => ret Panicked
      | Some contentType =>
          let w := Http.SetHeader "Content-Type" contentType w in
          let w := Http.SetHeader "Cache-Control" "public, max-age=31536000" w in
          ret (Returned (Http.Write data w))
      end
  end.

(** The handler registered for the prefix [/assets/]; [urlPath] is
    [r.URL.Path]. *)
Definition assetHandler (assetsBasePath : string) (w : Http.ResponseWriter)
  (urlPath : string) : IO Outcome :=
  let assetPath := TrimPrefix urlPath "/assets/" in
  storageLocation <- Featureflags.ImageStorageLocation_GetValue ;;
  store <- selectStore assetsBasePath storageLocation ;;
  got <- Get store assetPath ;;
  reply w assetPath got.

(** The handler as [main] installs it. *)
Definition serveAsset (urlPath : string) : IO Outcome :=
  base <- assetsBasePath ;;
  assetHandler base Http.NewRecorder urlPath.

End Main.

(* ================================================================= *)
(** ** [Clean] on the elements of a path *)

Module Elements.
Import GoStrings Filepath.
Local Open Scope string_scope.

(** [Clean] seen on the elements of the path.  One element: [out] holds
    the elements written so far, last element first; an empty element and
    [.] are skipped, [..] removes the last real element when there is one,
    is dropped at the root of a rooted path and is appended otherwise. *)
Definition clean_step (rooted : bool) (out : list string) (e : string)
  : list string :=
  if (e =? "") || (e =? ".") then out
  else if e =? ".." then
    match out with
    | top :: below => if top =? ".." then e :: out else below
    | [] => if rooted then [] else [e]
    end
  else e :: out.

Definition clean_elems (rooted : bool) (out : list string) (es : list string)
  : list string :=
  fold_left (clean_step rooted) es out.

(** The text of a buffer: its elements in order, separated by [/], after
    the leading [/] of a rooted path; the empty relative path is [.]. *)
Definition render (rooted : bool) (out : list string) : string :=
  if rooted then "/" ++ GoStrings.Join (rev out) "/"
  else match out with
       | [] => "."
       | _ => GoStrings.Join (rev out) "/"
       end.

(** An element: a string without separator. *)
Definition elem (e : string) : Prop := Split e Separator = [e].

(** An element the loop of [Clean] keeps: neither empty nor [.]. *)
Definition kept (e : string) : bool := negb ((e =? "") || (e =? ".")).

(** A real element: kept, and not [..]. *)
Definition real (e : string) : Prop := kept e = true /\ e <> "..".

(** The bytes of a string, last byte first. *)
Definition rbytes (s : string) : list ascii := rev (list_ascii_of_string s).

(** The buffer before the first element. *)
Definition buf0 (rooted : bool) : list ascii :=
  if rooted then [Separator] else [].

(** The buffer that holds the elements of [stack] (last element first). *)
Fixpoint buf (rooted : bool) (stack : list string) : list ascii :=
  match stack with
  | [] => buf0 rooted
  | e :: below =>
      rbytes e ++ match below with
                  | [] => buf0 rooted
                  | _ => Separator :: buf rooted below
                  end
  end.

(** The part of the stack under its real elements. *)
Fixpoint strip (stack : list string) : list string :=
  match stack with
  | [] => []
  | e :: below => if e =? ".." then stack else strip below
  end.

Definition mark (rooted : bool) (stack : list string) : nat :=
  if rooted then 1 else List.length (buf false (strip stack)).

(** The stacks the loop builds. *)
Inductive shape (rooted : bool) : list string -> Prop :=
| shape_nil : shape rooted []
| shape_up (below : list string) :
    rooted = false -> Forall (fun x => x = "..") below ->
    shape rooted (".." :: below)
| shape_real (e : string) (below : list string) :
    real e -> elem e -> shape rooted below ->
    shape rooted (e :: below).

End Elements.

(* ================================================================= *)
(** ** The checks of the storage, without their effects *)

Module Checks.
Import GoStrings Os Filepath Storage Elements.
Local Open Scope string_scope.

(** [Abs] without its effects: [wd] is the working directory. *)
Definition abs_of (wd path : string) : string :=
  if IsAbs path then Clean path else Join [wd; path].

(** The working directory can be used: [path] does not need it, or
    [os.Getwd] returns an absolute path. *)
Definition resolvable (w : World) (path : string) : Prop :=
  IsAbs path = true \/ exists wd, cwd w = inl wd /\ IsAbs wd = true.

Definition wd_of (w : World) : string :=
  match cwd w with inl wd => wd | inr _ => "" end.

(** The buffer of the canonical root. *)
Definition root_buf (wd base : string) : list string :=
  if IsAbs base then clean_elems true [] (Split base Separator)
  else clean_elems true (clean_elems true [] (Split wd Separator)) (Split base Separator).

(** [fullPath] of [Get] and [Exists]. *)
Definition fullPath_of (s : LocalStorage) (path : string) : string :=
  Join [basePath s; Clean path].

(** The checks of [Get] (lines 27 to 48) and of [Exists] (lines 63 to 83)
    let the request through. *)
Definition validated (s : LocalStorage) (path : string) (w : World) : bool :=
  negb (Contains (Clean path) "..")
  && match fst (Abs (basePath s) w), fst (Abs (fullPath_of s path) w) with
     | (absBase, None), (absPath, None) => HasPrefix absPath absBase
     | _, _ => false
     end.

(** A trace without any call on a file. *)
Definition on_file (e : Event) : bool :=
  match e with
  | Sys_open _ | Sys_read _ | Sys_close _ | Sys_stat _ => true
  | Sys_getwd | Log_print _ => false
  end.

Definition no_file_call (t : list Event) : Prop := existsb on_file t = false.

(** The errors a failed check produces. *)
Definition check_error (e : error) : Prop :=
  e = ErrTraversal \/ e = ErrOutside
  \/ (exists err, e = Errorf_w "failed to resolve base path: " err)
  \/ (exists err, e = Errorf_w "failed to resolve file path: " err).

(** What [Get] returns once the checks are passed, by the entry found
    under [fullPath]. *)
Definition fetched (fullPath : string) (entry : Entry) : list byte * option error :=
  match entry with
  | Regular content => (content, None)
  | ReadFails partial e => (partial, Some (PathError "read" fullPath e))
  | StatFails e | OpenFails e =>
      if IsNotExist (PathError "open" fullPath e) then ([], Some ErrNotFound)
      else ([], Some (Errorf_w "failed to open file: " (PathError "open" fullPath e)))
  end.

(** The base path [main] computes. *)
Definition base_of (w : World) : string :=
  if ASSETS_BASE_PATH w =? "" then "./assets" else ASSETS_BASE_PATH w.

End Checks.

(* ================================================================= *)
(** ** The words of the specification *)

Module Spec.
Import GoStrings Os Filepath Storage Main.
Local Open Scope string_scope.

(** The error taxonomy of the specification, read off the message of the
    error [Get] returns. *)
Inductive Kind : Type := InvalidPath | NotFound | IOError.

Definition kind_of (e : error) : Kind :=
  if HasPrefix (Error e) "invalid path:" then InvalidPath
  else if Error e =? "file not found" then NotFound
  else IOError.

(** The elements of a canonical path. *)
Definition path_elems (p : string) : list string :=
  filter (fun e => negb (e =? "")) (Split p Separator).

Fixpoint starts_with (l pre : list string) {struct pre} : bool :=
  match pre, l with
  | [], _ => true
  | x :: pre', y :: l' => (x =? y) && starts_with l' pre'
  | _ :: _, [] => false
  end.

(** Containment by path-segment boundaries: the candidate is the root or
    nested under it. *)
Definition within (root candidate : string) : bool :=
  starts_with (path_elems candidate) (path_elems root).

(** The first [n] bytes of [data] are the text [lit]. *)
Definition leading (n : nat) (data : list byte) (lit : string) : bool :=
  (n <=? List.length data)%nat && (string_of_list_byte (firstn n data) =? lit).

(** The content type as the specification words it: the two markers
    first, then the extension, then the default. *)
Definition reference_content_type (byExtension : string -> string)
  (path : string) (data : list byte) : string :=
  if leading 4 data "<svg" || leading 5 data "<?xml" then "image/svg+xml"
  else if byExtension (Ext path) =? "" then "application/octet-stream"
  else byExtension (Ext path).

(** The same with the length guard of the handler: the markers count only
    in a content of at least five bytes. *)
Definition guarded_content_type (byExtension : string -> string)
  (path : string) (data : list byte) : string :=
  if (5 <=? List.length data)%nat
     && (leading 4 data "<svg" || leading 5 data "<?xml")
  then "image/svg+xml"
  else if byExtension (Ext path) =? "" then "application/octet-stream"
  else byExtension (Ext path).

(** The content type the handler sends for a file read from [path]. *)
Definition contentTypeOf (byExtension : string -> string) (path : string)
  (data : list byte) : option string :=
  detectContentType (byExtension (Ext path)) data.

(** The world with another value of the flag [ImageStorageLocation]. *)
Definition with_storage_location (w : World) (loc : string) : World :=
  {| cwd := cwd w;
     files := files w;
     ASSETS_BASE_PATH := ASSETS_BASE_PATH w;
     mimeTypes := mimeTypes w;
     ImageStorageLocation := loc;
     logLevel := logLevel w |}.

(** The reply to every failed [Get]. *)
Definition notFoundReply : Http.ResponseWriter :=
  {| Http.Header := [("Content-Type", "text/plain; charset=utf-8");
                     ("X-Content-Type-Options", "nosniff")];
     Http.Status := Some 404;
     Http.Body := list_byte_of_string ("not found" ++ String "010" "") |}.

End Spec.

(** Worlds for the examples. *)
Module Examples.
Import Os.
Local Open Scope string_scope.

Definition bytes (s : string) : list byte := list_byte_of_string s.

Definition jpegOnly (ext : string) : string :=
  if ext =? ".jpg" then "image/jpeg" else "".

(** The container of the Dockerfile: working directory [/app]; one file
    beside it, one asset with two dots in its name. *)
Definition container : World :=
  {| cwd := inl "/app";
     files := fun name =>
       if name =? "/application/secret" then Regular (bytes "top secret")
       else if name =? "assets/notes..old.txt" then Regular (bytes "old notes")
       else if name =? "assets/sub/dir/file.bin" then Regular (bytes "B")
       else StatFails ENOENT;
     ASSETS_BASE_PATH := "";
     mimeTypes := jpegOnly;
     ImageStorageLocation := "local";
     logLevel := Info |}.

End Examples.

(* ================================================================= *)
(** ** The calls of a request on the file system *)

Module Calls.
Import Os.

(** The calls [Get] makes on the file under [fullPath] once its checks
    are passed: a failed [os.Open] is followed by nothing; an opened file
    is read, then closed by the deferred [file.Close()]. *)
Definition file_calls (fullPath : string) (entry : Entry) : list Event :=
  match entry with
  | StatFails _ | OpenFails _ => [Sys_open fullPath]
  | ReadFails _ _ | Regular _ =>
      [Sys_open fullPath; Sys_read fullPath; Sys_close fullPath]
  end.

(** The world seen from another working directory. *)
Definition with_cwd (w : World) (dir : string + Errno) : World :=
  {| cwd := dir;
     files := files w;
     ASSETS_BASE_PATH := ASSETS_BASE_PATH w;
     mimeTypes := mimeTypes w;
     ImageStorageLocation := ImageStorageLocation w;
     logLevel := logLevel w |}.

(** The file a call is made on. *)
Definition file_of (e : Event) : option string :=
  match e with
  | Sys_open name | Sys_read name | Sys_close name | Sys_stat name => Some name
  | Sys_getwd | Log_print _ => None
  end.

End Calls.

(** More worlds for the examples. *)
Module MoreExamples.
Import Os Examples.

(** The container of the Dockerfile with the log level [debug]. *)
Definition debugging : World :=
  {| cwd := cwd container;
     files := files container;
     ASSETS_BASE_PATH := ASSETS_BASE_PATH container;
     mimeTypes := mimeTypes container;
     ImageStorageLocation := ImageStorageLocation container;
     logLevel := Debug |}.

End MoreExamples.

(* ================================================================= *)
(** ** Package [internal/logger]: the level and the other printers *)

Module Logging.
Import Os.
Local Open Scope io_scope.

(** The world with another value of [current]. *)
Definition with_level (w : World) (l : Level) : World :=
  {| cwd := cwd w;
     files := files w;
     ASSETS_BASE_PATH := ASSETS_BASE_PATH w;
     mimeTypes := mimeTypes w;
     ImageStorageLocation := ImageStorageLocation w;
     logLevel := l |}.

(** [SetLevel(level)]: stores the level named; [Info] for any other
    string. *)
Definition SetLevel (level : string) (w : World) : World :=
  if level =? "debug" then with_level w Debug
  else if level =? "warn" then with_level w Warn
  else if level =? "error" then with_level w Error_
  else with_level w Info.

(** [Init(level)]; the output and the flags of package [log] are not part
    of the world. *)
Definition Init (level : string) (w : World) : World := SetLevel level w.

(** [GetLevel()]. *)
Definition GetLevel : IO string :=
  w <- ask ;;
  ret (match logLevel w with
       | Debug => "debug"
       | Warn => "warn"
       | Error_ => "error"
       | _ => "info"
       end).

(** [Infof] and [Errorf], as [Debugf] and [Warnf] above. *)
Definition Infof (msg : string) : IO unit :=
  w <- ask ;;
  if (Level_rank (logLevel w) <=? Level_rank Info)%nat
  then emit (Log_print ("[INFO ] " ++ msg)) else ret tt.

Definition Errorf (msg : string) : IO unit :=
  w <- ask ;;
  if (Level_rank (logLevel w) <=? Level_rank Error_)%nat
  then emit (Log_print ("[ERROR] " ++ msg)) else ret tt.

End Logging.

(* ================================================================= *)
(** ** Handlers over any [http.ResponseWriter] *)

Module Handlers.
Import GoStrings Os.
Local Open Scope io_scope.

Definition StatusServiceUnavailable : nat := 503.

(** What the program reads of a [*http.Request]: [r.Method],
    [r.URL.Path], [r.URL.String()] and [r.UserAgent()]. *)
Record Request : Type := {
  Method : string;
  URL_Path : string;
  URL_String : string;
  UserAgent : string
}.

(** The interface [http.ResponseWriter], as handlers use it:
    [w.Header().Set], [w.Header().Del], [w.WriteHeader] and [w.Write]. *)
Class ResponseWriter (W : Type) : Type := {
  SetHeader : string -> string -> W -> W;
  DelHeader : string -> W -> W;
  WriteHeader : nat -> W -> W; Write : list byte -> W -> W
}.

(** The recorder of package [Http] implements it. *)
#[export] Instance Recorder : ResponseWriter Http.ResponseWriter := {|
  SetHeader := Http.SetHeader;
  DelHeader := Http.DelHeader;
  WriteHeader := Http.WriteHeader; Write := Http.Write
|}.

(** [http.Error(w, error, code)] on any writer. *)
Definition http_Error {W : Type} `{ResponseWriter W} (w : W) (error : string)
  (code : nat) : W :=
  let w := DelHeader "Content-Length" w in
  let w := SetHeader "Content-Type" "text/plain; charset=utf-8" w in
  let w := SetHeader "X-Content-Type-Options" "nosniff" w in
  let w := WriteHeader code w in
  let body := list_byte_of_string (error ++ String "010" "") in
  Write body w.

(** An [http.Handler]: it is given a writer of any type and the request;
    [None] is a panic. *)
Definition Handler : Type :=
  forall W : Type, ResponseWriter W -> W -> Request -> IO (option W).

(** One call on a writer, and a sequence of calls. *)
Inductive Call : Type :=
| Call_SetHeader (key value : string)
| Call_DelHeader (key : string)
| Call_WriteHeader (code : nat)
| Call_Write (data : list byte).

Definition call {W : Type} `{ResponseWriter W} (w : W) (c : Call) : W :=
  match c with
  | Call_SetHeader key value => SetHeader key value w
  | Call_DelHeader key => DelHeader key w
  | Call_WriteHeader code => WriteHeader code w
  | Call_Write data => Write data w
  end.

Definition play {W : Type} `{ResponseWriter W} (calls : list Call) (w : W) : W :=
  fold_left call calls w.

(** A handler that treats every writer alike: what it does to its writer
    is a sequence of calls that it computes from the request and the
    world. *)
Definition scripted (h : Handler) (script : Request -> IO (option (list Call)))
  : Prop :=
  forall (W : Type) (I : ResponseWriter W) (w : W) (r : Request) (world : World),
    h W I w r world
    = (option_map (fun calls => play calls w) (fst (script r world)),
       snd (script r world)).

(** The code of the last [WriteHeader] among the calls, [code] when there
    is none. *)
Definition last_code (calls : list Call) (code : nat) : nat :=
  fold_left (fun code c => match c with
                           | Call_WriteHeader code' => code'
                           | _ => code
                           end) calls code.

End Handlers.

(* ================================================================= *)
(** ** Package [internal/http/middleware] *)

Module Middleware.
Import GoStrings Os Handlers.
Local Open Scope io_scope.

(** [opts]: the map [skips] is a set of paths, kept as the list of its
    keys. *)
Record opts : Type := { skips : list string }.

Definition Option : Type := opts -> opts.

(** [_, ok := o.skips[path]]. *)
Definition lookup (o : opts) (path : string) : bool :=
  existsb (String.eqb path) (skips o).

(** [o.skips[p] = struct{}{}]. *)
Definition insert (o : opts) (p : string) : opts :=
  if lookup o p then o else {| skips := p :: skips o |}.

(** [WithSkips(paths...)]. *)
Definition WithSkips (paths : list string) : Option :=
  fun o => fold_left insert paths o.

(** [type wrap struct { http.ResponseWriter; status int }]. *)
Record wrap (W : Type) : Type := { inner : W; status : nat }.
Arguments inner {W} _.
Arguments status {W} _.

(** The methods of [*wrap]: [WriteHeader] keeps the code and passes it
    on; the others are those of the embedded writer. *)
#[export] Instance wrap_ResponseWriter (W : Type) `{ResponseWriter W}
  : ResponseWriter (wrap W) := {|
  SetHeader := fun key value ww =>
    {| inner := SetHeader key value (inner ww); status := status ww |};
  DelHeader := fun key ww =>
    {| inner := DelHeader key (inner ww); status := status ww |};
  WriteHeader := fun code ww =>
    {| inner := WriteHeader code (inner ww); status := code |};
  Write := fun data ww =>
    {| inner := Write data (inner ww); status := status ww |}
|}.

(** The verb [%d] on a status. *)
Definition Itoa (n : nat) : string := NilEmpty.string_of_uint (Nat.to_uint n).

Section LogRequests.

(** The text of [time.Since(start)] and the verb [%q] belong to the
    libraries; they are left open. *)
Variable elapsed : World -> string.
Variable quote : string -> string.

(** The line of [log.Printf("%s %s status=%d dur=%s ua=%q", ...)]. *)
Definition requestLine (r : Request) (status : nat) (world : World) : string :=
  Method r ++ " " ++ URL_String r ++ " status=" ++ Itoa status
  ++ " dur=" ++ elapsed world ++ " ua=" ++ quote (UserAgent r).

(** [LogRequests(options...)(next)]. *)
Definition LogRequests (options : list Option) (next : Handler) : Handler :=
  let o := fold_left (fun o fn => fn o) options {| skips := [] |} in
  fun W _ w r =>
    if lookup o (URL_Path r) then next W _ w r
    else
      let ww := {| inner := w; status := 200 |} in
      out <- next (wrap W) _ ww r ;;
      match out with
      | None => ret None
      | Some ww =>
          world <- ask ;;
          emit (Log_print (requestLine r (status ww) world)) ;;
          ret (Some (inner ww))
      end.

End LogRequests.

(** [hasPrefixIn(path, set)]; [set] lists the keys of the map in the
    order of the iteration. *)
Fixpoint hasPrefixIn (path : string) (set : list string) : bool :=
  match set with
  | [] => false
  | p :: rest => if HasPrefix path p then true else hasPrefixIn path rest
  end.

End Middleware.

(* ================================================================= *)
(** ** Package [main]: the other handlers and the middleware *)

Module Server.
Import GoStrings Os Storage Main Handlers Middleware.
Local Open Scope io_scope.

Section Routes.

(** The flag [Offline] and the data base belong to the world. *)
Variable Offline : World -> bool.
Variable Ping : IO (option error).



(** The handler of [/health]. *)
Definition healthHandler : Handler :=
  fun W _ w _ =>
    let w := WriteHeader Http.StatusOK w in
    ret (Some (Write (list_byte_of_string "ok") w)).

(** The handler of [/ready]. *)
Definition readyHandler : Handler :=
  fun W _ w _ =>
    err <- Ping ;;
    match err with
    | Some _ => ret (Some (http_Error w "db not ready" StatusServiceUnavailable))
    | None =>
        let w := WriteHeader Http.StatusOK w in
        ret (Some (Write (list_byte_of_string "ready") w))
    end.



Variable elapsed : World -> string.
Variable quote : string -> string.


End Routes.

End Server.

(* ================================================================= *)
(** ** The calls of the handlers of [main] on their writer *)

Module Scripts.
Import GoStrings Os Storage Main Handlers.
Local Open Scope io_scope.

(** The calls of [http.Error]. *)
Definition errorCalls (error : string) (code : nat) : list Call :=
  [Call_DelHeader "Content-Length";
   Call_SetHeader "Content-Type" "text/plain; charset=utf-8";
   Call_SetHeader "X-Content-Type-Options" "nosniff";
   Call_WriteHeader code;
   Call_Write (list_byte_of_string (error ++ String "010" ""))].

Definition healthCalls : list Call :=
  [Call_WriteHeader Http.StatusOK; Call_Write (list_byte_of_string "ok")].

Definition readyCalls (err : option error) : list Call :=
  match err with
  | Some _ => errorCalls "db not ready" StatusServiceUnavailable
  | None => [Call_WriteHeader Http.StatusOK; Call_Write (list_byte_of_string "ready")]
  end.







End Scripts.

(* ================================================================= *)
(** ** Package [internal/featureflags]: reading the key *)

Module FeatureflagsKey.
Import GoStrings Os.
Local Open Scope io_scope.

(** [os.ReadFile]: the file is opened, read to its end and closed. *)
Definition ReadFile (name : string) : IO (list byte * option error) :=
  '(f, err) <- Open name ;;
  match err with
  | Some err => ret ([], Some err)
  | None =>
      r <- ReadAll f ;;
      Close f ;;
      ret r
  end.

Section ReadEnvKey.

(** [strings.TrimSpace], and [json.Unmarshal] into the struct of the two
    fields [EnvKey] and [Key], belong to the libraries; they are left
    open. *)
Variable TrimSpace : string -> string.
Variable Unmarshal : string -> (string * string) * option error.

(** [readEnvKey(path)]. *)
Definition readEnvKey (path : string) : IO (string * option error) :=
  '(b, err) <- ReadFile path ;;
  match err with
  | Some err => ret ("", Some (Errorf_w ("read " ++ path ++ ": ") err))
  | None =>
      let s := TrimSpace (string_of_list_byte b) in
      if s =? "" then ret ("", Some (Errorf ("file " ++ path ++ " empty")))
      else if HasPrefix s "{" then
        let '((EnvKey, Key), err) := Unmarshal s in
        match err with
        | Some err =>
            ret ("", Some (Errorf_w ("parse JSON in " ++ path ++ ": ") err))
        | None =>
            if negb (EnvKey =? "") then ret (EnvKey, None)
            else if negb (Key =? "") then ret (Key, None)
            else ret ("", Some (Errorf ("no envKey in JSON " ++ path)))
        end
      else ret (s, None)
  end.

End ReadEnvKey.

End FeatureflagsKey.

(* ================================================================= *)
(** ** Package [main]: the log level follows its flag *)

Module LevelWatch.
Import Os Logging.

(** One round of the loop that watches the flag [LogLevel], after its
    [time.Sleep]: [cur] is the value of the flag read in this round, [prev]
    the one the loop remembers.  The result is the new [prev], the world
    with the level set, and the line logged. *)
Definition watchRound (cur : string) (st : string * World)
  : (string * World) * list Event :=
  let (prev, w) := st in
  if negb (cur =? prev) then
    let w := SetLevel cur w in
    ((cur, w), snd (Infof ("log level changed to " ++ fst (GetLevel w)) w))
  else ((prev, w), []).

(** The rounds of the loop on the values the flag takes. *)
Fixpoint watch (curs : list string) (st : string * World)
  : (string * World) * list Event :=
  match curs with
  | [] => (st, [])
  | cur :: rest =>
      let (st1, t1) := watchRound cur st in
      let (st2, t2) := watch rest st1 in
      (st2, t1 ++ t2)
  end.

End LevelWatch.

(* ================================================================= *)
(** ** The path functions on the tables of Go's own tests *)

Module FilepathTests.
Import Filepath.

(** Rows of the table of [TestClean] in Go's [path/filepath]. *)
Example clean_rows :
  map Clean
    [ "abc"; "abc/def"; "a/b/c"; "."; ".."; "../.."; "../../abc"; "/abc"; "/";
      ""; "abc/"; "abc/def/"; "a/b/c/"; "./"; "../"; "../../"; "/abc/";
      "abc//def//ghi"; "abc//"; "abc/./def"; "/./abc/def"; "abc/.";
      "abc/def/ghi/../jkl"; "abc/def/../ghi/../jkl"; "abc/def/.."; "abc/def/../..";
      "/abc/def/../.."; "abc/def/../../.."; "/abc/def/../../..";
      "abc/def/../../../ghi/jkl/../../../mno"; "/../abc";
      "abc/./../def"; "abc//./../def"; "abc/../../././../def" ]
  = [ "abc"; "abc/def"; "a/b/c"; "."; ".."; "../.."; "../../abc"; "/abc"; "/";
      "."; "abc"; "abc/def"; "a/b/c"; "."; ".."; "../.."; "/abc";
      "abc/def/ghi"; "abc"; "abc/def"; "/abc/def"; "abc";
      "abc/def/jkl"; "abc/jkl"; "abc"; ".";
      "/"; ".."; "/";
      "../../mno"; "/abc";
      "def"; "def"; "../../def" ].
Proof. reflexivity. Qed.

(** Rows of the table of [TestJoin]. *)
Example join_rows :
  map Join
    [ []; [""]; ["/"]; ["a"]; ["a"; "b"]; ["a"; ""]; [""; "b"]; ["/"; "a"];
      ["/"; "a/b"]; ["/"; ""]; ["/a"; "b"]; ["a"; "/b"]; ["/a"; "/b"];
      ["a/"; "b"]; ["a/"; ""]; [""; ""]; ["//"; "a"] ]
  = [ ""; ""; "/"; "a"; "a/b"; "a"; "b"; "/a";
      "/a/b"; "/"; "/a/b"; "a/b"; "/a/b";
      "a/b"; "a"; ""; "/a" ].
Proof. reflexivity. Qed.

(** Rows of the table of [TestExt]. *)
Example ext_rows :
  map Ext ["path.go"; "path.pb.go"; "a.dir/b"; "a.dir/b.go"; "a.dir/"; "x.jpg"; "";
           "notes..old.txt"; "a.b."; "noext"; ".bashrc"]
  = [".go"; ".go"; ""; ".go"; ""; ".jpg"; "";
     ".txt"; "."; ""; ".bashrc"].
Proof. reflexivity. Qed.

End FilepathTests.

(* ================================================================= *)
(** ** Facts about strings and path elements *)

Module StringFacts.
Import GoStrings Filepath Elements Checks.
Local Open Scope string_scope.

Lemma append_nil_r (s : string) : s ++ "" = s.
Proof. induction s as [|c s IH]; simpl; congruence. Qed.

Lemma append_assoc (a b c : string) : (a ++ b) ++ c = a ++ (b ++ c).
Proof. induction a as [|x a IH]; simpl; congruence. Qed.

Lemma HasPrefix_String (c d : ascii) (s p : string) :
  HasPrefix (String c s) (String d p)
  = if ascii_dec d c then HasPrefix s p else false.
Proof. reflexivity. Qed.

Lemma HasPrefix_refl (s : string) : HasPrefix s s = true.
Proof.
  unfold HasPrefix. induction s as [|c s IH]; simpl; auto.
  destruct (ascii_dec c c); congruence.
Qed.

Lemma HasPrefix_app (p s : string) : HasPrefix (p ++ s) p = true.
Proof.
  unfold HasPrefix. induction p as [|c p IH]; simpl.
  - destruct s; reflexivity.
  - destruct (ascii_dec c c); congruence.
Qed.

Lemma HasPrefix_inv (s p : string) :
  HasPrefix s p = true -> exists t, s = p ++ t.
Proof.
  unfold HasPrefix. revert s. induction p as [|c p IH]; intros s H.
  - exists s. reflexivity.
  - destruct s as [|d s]; simpl in H; try discriminate.
    destruct (ascii_dec c d) as [->|]; try discriminate.
    destruct (IH _ H) as [t ->]. exists t. reflexivity.
Qed.

Lemma Contains_nil (sub : string) : Contains "" sub = HasPrefix "" sub.
Proof. destruct sub; reflexivity. Qed.

Lemma Contains_String (c : ascii) (s sub : string) :
  Contains (String c s) sub = HasPrefix (String c s) sub || Contains s sub.
Proof. reflexivity. Qed.

Lemma Contains_prefix (s sub : string) :
  HasPrefix s sub = true -> Contains s sub = true.
Proof.
  intros H. destruct s; [rewrite Contains_nil | rewrite Contains_String, H]; auto.
Qed.

Lemma Contains_tail (c : ascii) (s sub : string) :
  Contains s sub = true -> Contains (String c s) sub = true.
Proof. intros H. rewrite Contains_String, H. apply orb_true_r. Qed.

(** A string contains what stands between any two of its parts. *)
Lemma Contains_infix (a sub b : string) : Contains (a ++ sub ++ b) sub = true.
Proof.
  induction a as [|c a IH]; simpl append.
  - apply Contains_prefix, HasPrefix_app.
  - apply Contains_tail, IH.
Qed.

Lemma Contains_inv (s sub : string) :
  Contains s sub = true -> exists a b, s = a ++ sub ++ b.
Proof.
  induction s as [|c s IH]; intros H.
  - rewrite Contains_nil in H.
    apply HasPrefix_inv in H. destruct H as [t E]. exists "", t. exact E.
  - rewrite Contains_String in H.
    destruct (HasPrefix (String c s) sub) eqn:E; simpl in H.
    + apply HasPrefix_inv in E. destruct E as [t E]. exists "", t. exact E.
    + destruct (IH H) as (a & b & ->). exists (String c a), b. reflexivity.
Qed.

(** *** Splitting at the separator *)

Lemma Split_nonempty (s : string) : Split s Separator <> [].
Proof.
  destruct s as [|c s]; simpl; try discriminate.
  destruct (Ascii.eqb c Separator); try discriminate.
  destruct (Split s Separator); discriminate.
Qed.

Lemma Split_cons (c : ascii) (s : string) :
  Ascii.eqb c Separator = false ->
  exists e es, Split s Separator = e :: es /\ Split (String c s) Separator = String c e :: es.
Proof.
  intros Hc. simpl. rewrite Hc.
  destruct (Split s Separator) as [|e es] eqn:E.
  - exfalso. exact (Split_nonempty s E).
  - exists e, es. auto.
Qed.

(** Splitting distributes over a join with the separator. *)
Lemma Split_app (a b : string) :
  Split (a ++ String Separator b) Separator = (Split a Separator ++ Split b Separator)%list.
Proof.
  induction a as [|c a IH].
  - reflexivity.
  - simpl append. destruct (Ascii.eqb c Separator) eqn:Hc.
    + simpl. rewrite Hc, IH. reflexivity.
    + destruct (Split_cons c a Hc) as (e & es & E1 & E2).
      rewrite E2. simpl. rewrite Hc, IH, E1. reflexivity.
Qed.

Lemma Split_all_elem (s : string) : Forall elem (Split s Separator).
Proof.
  induction s as [|c s IH].
  - repeat constructor.
  - destruct (Ascii.eqb c Separator) eqn:Hc.
    + simpl. rewrite Hc. constructor; [reflexivity | exact IH].
    + destruct (Split_cons c s Hc) as (e & es & E1 & E2).
      rewrite E2. rewrite E1 in IH. inversion IH as [|? ? He Hes]; subst.
      constructor; [|exact Hes].
      unfold elem in *. simpl. rewrite Hc, He. reflexivity.
Qed.

Lemma elem_not_abs (e : string) : elem e -> HasPrefix e "/" = false.
Proof.
  unfold elem. destruct e as [|c e]; intros H; [reflexivity|].
  rewrite HasPrefix_String. destruct (ascii_dec "/" c) as [<-|]; [|reflexivity].
  simpl in H. discriminate.
Qed.

(** Splitting a join of elements gives the elements back. *)
Lemma Split_Join (e : string) (es : list string) :
  Forall elem (e :: es) -> Split (GoStrings.Join (e :: es) "/") Separator = e :: es.
Proof.
  revert e. induction es as [|e' es IH]; intros e H.
  - inversion H; subst. assumption.
  - inversion H as [|? ? He Hes]; subst.
    unfold GoStrings.Join in *.
    change (concat "/" (e :: e' :: es))
      with (e ++ String Separator (concat "/" (e' :: es))).
    rewrite Split_app, He, (IH e' Hes). reflexivity.
Qed.

(** Every piece of a split is a part of the string. *)
Lemma Split_In_infix (s e : string) :
  In e (Split s Separator) -> exists a b, s = a ++ e ++ b.
Proof.
  revert e. induction s as [|c s IH]; intros e.
  - simpl. intros [<-|[]]. exists "", "". reflexivity.
  - destruct (Ascii.eqb c Separator) eqn:Hc.
    + simpl. rewrite Hc. intros [<-|Hin].
      * exists "", (String c s). reflexivity.
      * destruct (IH _ Hin) as (a & b & ->). exists (String c a), b. reflexivity.
    + destruct (Split_cons c s Hc) as (e0 & es & E1 & E2).
      rewrite E2. intros [<-|Hin].
      * destruct (IH e0) as (a & b & E); [rewrite E1; left; reflexivity|].
        (* the first piece is a prefix *)
        clear IH E2.
        assert (Hp : exists b', s = e0 ++ b').
        { clear E a b. revert e0 es E1. induction s as [|d s IHs]; intros e0 es E1.
          - simpl in E1. injection E1 as <- <-. exists "". reflexivity.
          - simpl in E1. destruct (Ascii.eqb d Separator) eqn:Hd.
            + injection E1 as <- <-. exists (String d s). reflexivity.
            + destruct (Split s Separator) as [|e1 es1] eqn:E'; [injection E1 as <- <-|injection E1 as <- <-].
              * exfalso. exact (Split_nonempty s E').
              * destruct (IHs e1 es1 eq_refl) as [b' ->]. exists b'. reflexivity. }
        destruct Hp as [b' ->]. exists "", b'. reflexivity.
      * destruct (IH e) as (a & b & ->); [rewrite E1; right; exact Hin|].
        exists (String c a), b. reflexivity.
Qed.

Lemma Split_In_Contains (s e : string) :
  In e (Split s Separator) -> Contains s e = true.
Proof.
  intros H. destruct (Split_In_infix s e H) as (a & b & ->).
  apply Contains_infix.
Qed.

Lemma concat_app (l1 l2 : list string) :
  l1 <> [] -> l2 <> [] ->
  concat "/" (l1 ++ l2) = concat "/" l1 ++ String Separator (concat "/" l2).
Proof.
  induction l1 as [|x l1 IH]; intros H1 H2; [congruence|].
  destruct l1 as [|y l1].
  - destruct l2; [congruence|reflexivity].
  - change (concat "/" ((x :: y :: l1) ++ l2))
      with (x ++ String Separator (concat "/" ((y :: l1) ++ l2))).
    rewrite IH by (auto; discriminate).
    change (concat "/" (x :: y :: l1)) with (x ++ String Separator (concat "/" (y :: l1))).
    rewrite append_assoc. reflexivity.
Qed.

End StringFacts.

(* ================================================================= *)
(** ** Facts about [filepath.Clean] and [filepath.Join] *)

Module CleanFacts.
Import GoStrings Filepath Elements Checks StringFacts.
Local Open Scope string_scope.

Lemma real_not_empty (e : string) : real e -> e <> "".
Proof. intros [K _] ->. discriminate. Qed.

Lemma clean_step_skip (r : bool) (out : list string) (e : string) :
  kept e = false -> clean_step r out e = out.
Proof.
  unfold kept, clean_step. intros H. apply negb_false_iff in H.
  rewrite H. reflexivity.
Qed.

Lemma clean_step_real (r : bool) (out : list string) (e : string) :
  real e -> clean_step r out e = e :: out.
Proof.
  unfold real, kept, clean_step. intros [H1 H2]. apply negb_true_iff in H1.
  rewrite H1. apply String.eqb_neq in H2. rewrite H2. reflexivity.
Qed.

Lemma clean_step_dotdot (r : bool) (out : list string) :
  clean_step r out ".."
  = match out with
    | top :: below => if top =? ".." then ".." :: out else below
    | [] => if r then [] else [".."]
    end.
Proof. reflexivity. Qed.

Lemma kept_cases (e : string) :
  kept e = false \/ e = ".." \/ real e.
Proof.
  destruct (kept e) eqn:K; [|left; reflexivity]. right.
  destruct (String.eqb_spec e ".."); [left; assumption|right; split; assumption].
Qed.

Lemma clean_elems_app (r : bool) (out : list string) (es1 es2 : list string) :
  clean_elems r out (es1 ++ es2)%list = clean_elems r (clean_elems r out es1) es2.
Proof. apply fold_left_app. Qed.

(** Without a [..] element the loop only appends. *)
Lemma clean_elems_push (r : bool) (es : list string) :
  ~ In ".." es ->
  forall out, clean_elems r out es = (rev (filter kept es) ++ out)%list.
Proof.
  induction es as [|e es IH]; intros Hn out; [reflexivity|].
  assert (He : e <> "..") by (intros ->; apply Hn; left; reflexivity).
  assert (Hes : ~ In ".." es) by (intros H; apply Hn; right; exact H).
  cbn [clean_elems fold_left filter]. fold (clean_elems r (clean_step r out e) es).
  rewrite (IH Hes). destruct (kept e) eqn:K.
  - rewrite clean_step_real by (split; assumption).
    cbn [rev]. rewrite <- app_assoc. reflexivity.
  - rewrite clean_step_skip by assumption. reflexivity.
Qed.

(** *** Invariants of the buffer *)

Lemma clean_step_Forall (P : string -> Prop) (r : bool) (out : list string)
  (e : string) :
  Forall P out -> P e -> Forall P (clean_step r out e).
Proof.
  intros Hout He. destruct (kept_cases e) as [K|[->|R]].
  - rewrite clean_step_skip by assumption. exact Hout.
  - rewrite clean_step_dotdot. destruct out as [|top below].
    + destruct r; repeat constructor; assumption.
    + destruct (top =? ".."); [constructor; assumption|].
      inversion Hout; assumption.
  - rewrite clean_step_real by assumption. constructor; assumption.
Qed.

Lemma clean_elems_Forall (P : string -> Prop) (r : bool) (es : list string) :
  Forall P es -> forall out, Forall P out -> Forall P (clean_elems r out es).
Proof.
  induction 1 as [|e es He Hes IH]; intros out Hout; [exact Hout|].
  cbn [clean_elems fold_left]. apply IH. apply clean_step_Forall; assumption.
Qed.

(** Every element of the buffer is kept. *)
Lemma clean_step_kept (r : bool) (out : list string) (e : string) :
  Forall (fun x => kept x = true) out ->
  Forall (fun x => kept x = true) (clean_step r out e).
Proof.
  intros Hout. destruct (kept_cases e) as [K|[->|R]].
  - rewrite clean_step_skip by assumption. exact Hout.
  - apply clean_step_Forall; [exact Hout | reflexivity].
  - apply clean_step_Forall; [exact Hout | apply R].
Qed.

Lemma clean_elems_kept (r : bool) (es : list string) :
  forall out, Forall (fun x => kept x = true) out ->
              Forall (fun x => kept x = true) (clean_elems r out es).
Proof.
  induction es as [|e es IH]; intros out Hout; [exact Hout|].
  cbn [clean_elems fold_left]. apply IH, clean_step_kept, Hout.
Qed.

(** The buffer of a rooted path holds real elements only. *)
Lemma clean_step_rooted_real (out : list string) (e : string) :
  Forall real out -> Forall real (clean_step true out e).
Proof.
  intros Hout. destruct (kept_cases e) as [K|[->|R]].
  - rewrite clean_step_skip by assumption. exact Hout.
  - rewrite clean_step_dotdot. destruct out as [|top below]; [constructor|].
    inversion Hout as [|? ? [_ Ht] Hb]; subst.
    apply String.eqb_neq in Ht. rewrite Ht. exact Hb.
  - rewrite clean_step_real by assumption. constructor; assumption.
Qed.

Lemma clean_elems_rooted_real (es : list string) :
  forall out, Forall real out -> Forall real (clean_elems true out es).
Proof.
  induction es as [|e es IH]; intros out Hout; [exact Hout|].
  cbn [clean_elems fold_left]. apply IH, clean_step_rooted_real, Hout.
Qed.

(** *** Replaying a cleaned relative path

    Appending the cleaned form of a relative path to a rooted buffer gives
    what appending the path itself gives. *)

Lemma replay_step (S N : list string) (e : string) :
  Forall (fun x => kept x = true) N ->
  clean_elems true S (rev (clean_step false N e))
  = clean_step true (clean_elems true S (rev N)) e.
Proof.
  intros HN. destruct (kept_cases e) as [K|[->|R]].
  - rewrite !clean_step_skip by assumption. reflexivity.
  - rewrite (clean_step_dotdot false). destruct N as [|top below].
    + reflexivity.
    + destruct (String.eqb_spec top "..") as [->|Ht].
      * cbn [rev]. rewrite clean_elems_app. reflexivity.
      * cbn [rev]. rewrite clean_elems_app.
        cbn [clean_elems fold_left].
        inversion HN as [|? ? Kt Kb]; subst.
        rewrite (clean_step_real true _ top) by (split; assumption).
        rewrite clean_step_dotdot. apply String.eqb_neq in Ht. rewrite Ht.
        reflexivity.
  - rewrite (clean_step_real false) by assumption.
    cbn [rev]. rewrite clean_elems_app. reflexivity.
Qed.

Lemma replay (S : list string) (es : list string) :
  forall N, Forall (fun x => kept x = true) N ->
  clean_elems true S (rev (clean_elems false N es))
  = clean_elems true (clean_elems true S (rev N)) es.
Proof.
  induction es as [|e es IH]; intros N HN; [reflexivity|].
  cbn [clean_elems fold_left].
  fold (clean_elems false (clean_step false N e) es).
  rewrite IH by (apply clean_step_kept, HN).
  rewrite replay_step by exact HN. reflexivity.
Qed.

End CleanFacts.

(* ================================================================= *)
(** ** The byte loop of [Clean] and its element view

  The buffer of the loop holds, at every element boundary, the text of
  a stack of elements; one element of the path changes the buffer as
  [clean_step] changes the stack. *)

Module CleanBuffer.
Import GoStrings Filepath Elements Checks StringFacts CleanFacts.
Local Open Scope string_scope.

Lemma rbytes_String (c : ascii) (s : string) : rbytes (String c s) = (rbytes s ++ [c])%list.
Proof. reflexivity. Qed.

Lemma rbytes_length (s : string) : List.length (rbytes s) = String.length s.
Proof.
  unfold rbytes. rewrite length_rev.
  induction s as [|c s IH]; simpl; congruence.
Qed.

(** *** Elements byte by byte *)

Lemma elem_String_inv (c : ascii) (e : string) :
  elem (String c e) -> IsPathSeparator c = false /\ elem e.
Proof.
  unfold elem, IsPathSeparator. intros H. cbn [Split] in H.
  destruct (Ascii.eqb c Separator) eqn:Hc; [discriminate|]. split; [reflexivity|].
  destruct (Split e Separator) as [|x xs] eqn:E.
  - exfalso. exact (Split_nonempty e E).
  - injection H as H1 H2. subst. reflexivity.
Qed.

Lemma elem_ends (e tail : string) :
  elem e -> elementEnds tail = true ->
  elementEnds (e ++ tail) = match e with EmptyString => true | _ => false end.
Proof.
  intros He Ht. destruct e as [|c e]; [exact Ht|].
  apply elem_String_inv in He. destruct He as [Hc _]. exact Hc.
Qed.

(** The copy of a real element runs to its end. *)
Lemma copy_element (rooted : bool) (e tail : string) :
  elem e -> elementEnds tail = true ->
  forall out dotdot,
    cleanLoop rooted true (e ++ tail) out dotdot
    = cleanLoop rooted false tail (rbytes e ++ out) dotdot.
Proof.
  induction e as [|c e IH]; intros He Ht out dotdot.
  - cbn [append rbytes list_ascii_of_string rev app].
    destruct tail as [|t tail]; [reflexivity|].
    cbn [elementEnds] in Ht. cbn [cleanLoop]. rewrite Ht. reflexivity.
  - apply elem_String_inv in He. destruct He as [Hc He].
    cbn [append cleanLoop]. rewrite Hc. rewrite (IH He Ht).
    rewrite rbytes_String, <- app_assoc. reflexivity.
Qed.

(** *** The buffer of a stack *)

Lemma real_String (e : string) :
  real e -> exists c e', e = String c e'.
Proof.
  intros R. destruct e as [|c e']; [destruct R as [K _]; discriminate|].
  eauto.
Qed.

Lemma shape_head_nonempty (rooted : bool) (e : string) (below : list string) :
  shape rooted (e :: below) -> e <> "".
Proof.
  intros H. inversion H; subst; [discriminate|].
  apply real_not_empty. assumption.
Qed.

Lemma buf_cons (rooted : bool) (e : string) (below : list string) :
  buf rooted (e :: below)
  = (rbytes e ++ match below with
                 | [] => buf0 rooted
                 | _ => Separator :: buf rooted below
                 end)%list.
Proof. reflexivity. Qed.

Lemma buf_length_cons (rooted : bool) (e : string) (below : list string) :
  e <> "" ->
  List.length (buf0 rooted) < List.length (buf rooted (e :: below)).
Proof.
  intros He. rewrite buf_cons, length_app, rbytes_length.
  destruct e as [|c e]; [congruence|]. cbn [String.length].
  destruct below; destruct rooted; cbn [buf0 List.length]; lia.
Qed.

(** "add slash if needed". *)
Lemma addSlash_buf (rooted : bool) (stack : list string) :
  shape rooted stack ->
  addSlash rooted (buf rooted stack)
  = match stack with
    | [] => buf0 rooted
    | _ => Separator :: buf rooted stack
    end.
Proof.
  intros H. unfold addSlash. destruct stack as [|e below].
  - destruct rooted; reflexivity.
  - pose proof (buf_length_cons rooted e below (shape_head_nonempty _ _ _ H)) as L.
    destruct rooted; cbn [andb orb negb]; cbn [buf0 List.length] in L.
    + replace (List.length (buf true (e :: below)) =? 1)%nat with false
        by (symmetry; apply Nat.eqb_neq; lia).
      reflexivity.
    + replace (List.length (buf false (e :: below)) =? 0)%nat with false
        by (symmetry; apply Nat.eqb_neq; lia).
      reflexivity.
Qed.

Lemma buf_push (rooted : bool) (e : string) (stack : list string) :
  shape rooted stack ->
  (rbytes e ++ addSlash rooted (buf rooted stack))%list = buf rooted (e :: stack).
Proof. intros H. rewrite addSlash_buf by exact H. reflexivity. Qed.

End CleanBuffer.

(** *** The mark [dotdot] and backtracking *)

Module CleanLoopFacts.
Import GoStrings Filepath Elements Checks StringFacts CleanFacts.
Import CleanBuffer.
Local Open Scope string_scope.

(** *** The stacks of the loop *)

Lemma shape_step (rooted : bool) (stack : list string) (e : string) :
  shape rooted stack -> elem e -> shape rooted (clean_step rooted stack e).
Proof.
  intros H He. destruct (kept_cases e) as [K|[->|R]].
  - rewrite clean_step_skip by assumption. exact H.
  - rewrite clean_step_dotdot. inversion H as [|below Hr Hb|top below Rt Et Hb]; subst.
    + destruct rooted; [constructor|]. apply shape_up; [reflexivity|constructor].
    + cbn [String.eqb Ascii.eqb Bool.eqb]. apply shape_up; [reflexivity|].
      constructor; [reflexivity|assumption].
    + destruct Rt as [_ Rt]. apply String.eqb_neq in Rt. rewrite Rt. exact Hb.
  - rewrite clean_step_real by assumption. apply shape_real; assumption.
Qed.

Lemma strip_up (below : list string) : strip (".." :: below) = ".." :: below.
Proof. reflexivity. Qed.

Lemma strip_real (e : string) (below : list string) :
  e <> ".." -> strip (e :: below) = strip below.
Proof. intros H. cbn [strip]. apply String.eqb_neq in H. rewrite H. reflexivity. Qed.

Lemma mark_real (rooted : bool) (e : string) (below : list string) :
  e <> ".." -> mark rooted (e :: below) = mark rooted below.
Proof. intros H. unfold mark. rewrite strip_real by exact H. reflexivity. Qed.

(** Without a real element on top, the mark is the end of the buffer. *)
Lemma mark_full (rooted : bool) (stack : list string) :
  shape rooted stack ->
  match stack with [] => True | top :: _ => top = ".." end ->
  mark rooted stack = List.length (buf rooted stack).
Proof.
  intros H T. unfold mark. destruct stack as [|top below].
  - destruct rooted; reflexivity.
  - subst top. inversion H as [|? Hr _|? ? [_ Rt] _ _]; subst; [|congruence].
    reflexivity.
Qed.

Lemma mark_le (rooted : bool) (stack : list string) :
  shape rooted stack -> mark rooted stack <= List.length (buf rooted stack).
Proof.
  induction 1 as [|below Hr Hb|e below [Ke Re] Ee Hb IH].
  - rewrite mark_full; [lia|constructor|exact I].
  - rewrite mark_full; [lia|apply shape_up; assumption|reflexivity].
  - rewrite mark_real by exact Re. rewrite buf_cons, length_app.
    destruct below as [|b below]; cbn [List.length].
    + unfold mark in *. cbn [strip buf] in *.
      destruct rooted; cbn [buf0 List.length] in *; lia.
    + lia.
Qed.

(** With a real element on top there is room to backtrack. *)
Lemma mark_lt (rooted : bool) (e : string) (below : list string) :
  shape rooted (e :: below) -> e <> ".." ->
  mark rooted (e :: below) < List.length (buf rooted (e :: below)).
Proof.
  intros H Re. inversion H as [|? ? ?|? ? Rt Et Hb]; subst; [congruence|].
  rewrite mark_real by exact Re. pose proof (mark_le rooted below Hb) as L.
  rewrite buf_cons, length_app, rbytes_length.
  destruct e as [|c e]; [destruct Rt; discriminate|]. cbn [String.length].
  destruct below as [|b below]; cbn [List.length].
  - cbn [buf] in L. lia.
  - lia.
Qed.

(** *** Backtracking *)

Lemma backtrack_bytes (chars R : list ascii) (dotdot : nat) :
  Forall (fun c => IsPathSeparator c = false) chars -> chars <> [] ->
  dotdot <= List.length R ->
  backtrack (chars ++ R) dotdot
  = if (dotdot <? List.length R)%nat then backtrack R dotdot else R.
Proof.
  intros Hc Hn Hd. induction chars as [|c chars IH]; [congruence|].
  inversion Hc as [|? ? Hc1 Hc2]; subst. cbn [app backtrack]. rewrite Hc1.
  cbn [negb]. rewrite andb_true_r. destruct chars as [|c' chars].
  - reflexivity.
  - replace (dotdot <? List.length ((c' :: chars) ++ R))%nat with true
      by (symmetry; apply Nat.ltb_lt; rewrite length_app; cbn [List.length]; lia).
    apply IH; [assumption|discriminate].
Qed.

Lemma elem_rbytes (e : string) :
  elem e -> Forall (fun c => IsPathSeparator c = false) (rbytes e).
Proof.
  induction e as [|c e IH]; intros He; [constructor|].
  apply elem_String_inv in He. destruct He as [Hc He].
  rewrite rbytes_String. apply Forall_app. split; [apply IH, He|].
  constructor; [exact Hc|constructor].
Qed.

Lemma rbytes_not_nil (e : string) : e <> "" -> rbytes e <> [].
Proof.
  intros He H. apply (f_equal (@List.length ascii)) in H.
  rewrite rbytes_length in H. destruct e; [congruence|discriminate].
Qed.

Lemma backtrack_top (rooted : bool) (e : string) (below : list string) :
  shape rooted (e :: below) -> e <> ".." ->
  backtrack (buf rooted (e :: below)) (mark rooted below) = buf rooted below.
Proof.
  intros H Re. inversion H as [|? ? ?|? ? Rt Et Hb]; subst; [congruence|].
  pose proof (mark_le rooted below Hb) as L.
  rewrite buf_cons, backtrack_bytes.
  - destruct below as [|b below].
    + cbn [buf] in *. replace (mark rooted [] <? List.length (buf0 rooted))%nat
        with false; [reflexivity|].
      symmetry. apply Nat.ltb_ge. rewrite mark_full; [cbn [buf]; lia|constructor|exact I].
    + replace (mark rooted (b :: below)
               <? List.length (Separator :: buf rooted (b :: below)))%nat with true
        by (symmetry; apply Nat.ltb_lt; cbn [List.length]; lia).
      cbn [backtrack]. unfold IsPathSeparator. rewrite Ascii.eqb_refl.
      cbn [negb]. rewrite andb_false_r. reflexivity.
  - apply elem_rbytes, Et.
  - apply rbytes_not_nil, real_not_empty, Rt.
  - destruct below; cbn [List.length]; [cbn [buf] in L|]; lia.
Qed.

End CleanLoopFacts.

(** *** One element, then all of them *)

Module CleanEquiv.
Import GoStrings Filepath Elements Checks StringFacts CleanFacts.
Import CleanBuffer CleanLoopFacts.
Local Open Scope string_scope.

Lemma kept_false_cases (e : string) : kept e = false -> e = "" \/ e = ".".
Proof.
  unfold kept. destruct (String.eqb_spec e ""); [left; assumption|].
  destruct (String.eqb_spec e "."); [right; assumption|discriminate].
Qed.

Lemma sep_not_dot (c : ascii) :
  IsPathSeparator c = true -> Ascii.eqb c "."%char = false.
Proof.
  unfold IsPathSeparator. intros H. apply Ascii.eqb_eq in H. subst. reflexivity.
Qed.

(** A real element starts the copy. *)
Lemma real_element_copied (rooted : bool) (e tail : string) (out : list ascii)
  (dotdot : nat) :
  real e -> elem e -> elementEnds tail = true ->
  cleanLoop rooted false (e ++ tail) out dotdot
  = cleanLoop rooted false tail (rbytes e ++ addSlash rooted out) dotdot.
Proof.
  intros [K Rd] He Ht. destruct e as [|c e]; [discriminate|].
  pose proof (elem_String_inv c e He) as [Hc He'].
  assert (Hcopy :
    cleanLoop rooted true (e ++ tail) (c :: addSlash rooted out) dotdot
    = cleanLoop rooted false tail (rbytes (String c e) ++ addSlash rooted out) dotdot).
  { rewrite (copy_element rooted e tail He' Ht), rbytes_String, <- app_assoc.
    reflexivity. }
  cbn [append cleanLoop]. rewrite Hc, (elem_ends e tail He' Ht).
  destruct e as [|c2 e].
  - (* one byte, not a dot *)
    assert (Hd : Ascii.eqb c "."%char = false).
    { destruct (Ascii.eqb_spec c "."%char); [subst; discriminate|reflexivity]. }
    rewrite Hd. cbn [andb append]. cbn [append] in Hcopy.
    destruct tail as [|t tail]; [exact Hcopy|].
    exact Hcopy.
  - rewrite andb_false_r. cbn [append].
    pose proof (elem_String_inv c2 e He') as [Hc2 He''].
    rewrite (elem_ends e tail He'' Ht).
    destruct e as [|c3 e].
    + (* two bytes, not both dots *)
      assert (Hd : Ascii.eqb c "."%char && Ascii.eqb c2 "."%char = false).
      { destruct (Ascii.eqb_spec c "."%char); [|reflexivity].
        destruct (Ascii.eqb_spec c2 "."%char); [|reflexivity].
        subst. congruence. }
      rewrite andb_true_r, Hd. exact Hcopy.
    + rewrite andb_false_r. exact Hcopy.
Qed.

(** One element of the path, then the rest: the loop does to the buffer
    what [clean_step] does to the stack. *)
Lemma element_step (rooted : bool) (stack : list string) (e tail : string) :
  shape rooted stack -> elem e -> elementEnds tail = true ->
  cleanLoop rooted false (e ++ tail) (buf rooted stack) (mark rooted stack)
  = cleanLoop rooted false tail (buf rooted (clean_step rooted stack e))
      (mark rooted (clean_step rooted stack e)).
Proof.
  intros H He Ht. destruct (kept_cases e) as [K|[->|R]].
  - rewrite clean_step_skip by assumption.
    destruct (kept_false_cases e K) as [->| ->]; [reflexivity|].
    cbn [append cleanLoop IsPathSeparator Ascii.eqb Bool.eqb Separator andb].
    rewrite Ht. reflexivity.
  - rewrite clean_step_dotdot.
    cbn [append cleanLoop IsPathSeparator Ascii.eqb Bool.eqb Separator andb
           elementEnds].
    rewrite Ht. cbn [andb].
    destruct stack as [|top below].
    + rewrite (mark_full rooted []) by (exact H || exact I).
      rewrite Nat.ltb_irrefl. destruct rooted; reflexivity.
    + destruct (String.eqb_spec top "..") as [->|Rt].
      * rewrite (mark_full rooted (".." :: below)) by (exact H || reflexivity).
        rewrite Nat.ltb_irrefl.
        inversion H as [|? Hr Hb|? ? [_ Rt] _ _]; subst; [|congruence].
        cbn [negb]. reflexivity.
      * pose proof (mark_lt rooted top below H Rt) as L.
        apply Nat.ltb_lt in L. rewrite L.
        rewrite (mark_real rooted top below Rt), (backtrack_top rooted top below H Rt).
        reflexivity.
  - rewrite clean_step_real by assumption.
    rewrite (real_element_copied rooted e tail _ _ R He Ht).
    rewrite (buf_push rooted e stack H), (mark_real rooted e stack (proj2 R)).
    reflexivity.
Qed.

Lemma loop_elements (rooted : bool) (es : list string) :
  Forall elem es -> es <> [] ->
  forall stack, shape rooted stack ->
    cleanLoop rooted false (GoStrings.Join es "/") (buf rooted stack)
      (mark rooted stack)
    = buf rooted (clean_elems rooted stack es).
Proof.
  unfold GoStrings.Join.
  induction 1 as [|e es He Hes IH]; intros Hn stack H; [congruence|].
  destruct es as [|e2 es].
  - cbn [concat clean_elems fold_left].
    rewrite <- (append_nil_r e) at 1.
    rewrite (element_step rooted stack e "" H He eq_refl). reflexivity.
  - change (concat "/" (e :: e2 :: es))
      with (e ++ String Separator (concat "/" (e2 :: es))).
    rewrite (element_step rooted stack e
               (String Separator (concat "/" (e2 :: es))) H He eq_refl).
    cbn [cleanLoop IsPathSeparator Ascii.eqb Bool.eqb Separator].
    rewrite IH; [reflexivity|discriminate|apply shape_step; assumption].
Qed.

Lemma Join_Split (s : string) : GoStrings.Join (Split s Separator) "/" = s.
Proof.
  unfold GoStrings.Join. induction s as [|c s IH]; [reflexivity|].
  destruct (Ascii.eqb c Separator) eqn:Hc.
  - cbn [Split]. rewrite Hc. apply Ascii.eqb_eq in Hc. subst c.
    destruct (Split s Separator) as [|x xs] eqn:E;
      [exfalso; exact (Split_nonempty s E)|].
    change (concat "/" ("" :: x :: xs)) with (String Separator (concat "/" (x :: xs))).
    rewrite IH. reflexivity.
  - destruct (Split_cons c s Hc) as (e & es & E1 & E2). rewrite E2.
    rewrite E1 in IH. destruct es; cbn [concat] in *; rewrite <- IH; reflexivity.
Qed.

End CleanEquiv.

(** *** [Clean] is the element loop *)

Module CleanTheorem.
Import GoStrings Filepath Elements Checks StringFacts CleanFacts.
Import CleanBuffer CleanLoopFacts CleanEquiv.
Local Open Scope string_scope.

Lemma string_of_list_ascii_app (a b : list ascii) :
  string_of_list_ascii (a ++ b) = string_of_list_ascii a ++ string_of_list_ascii b.
Proof. induction a as [|c a IH]; cbn; [reflexivity|rewrite IH; reflexivity]. Qed.

Lemma string_of_rbytes (e : string) : string_of_list_ascii (rev (rbytes e)) = e.
Proof.
  unfold rbytes. rewrite rev_involutive. apply string_of_list_ascii_of_string.
Qed.

(** The text of a buffer. *)
Lemma text_buf (rooted : bool) (stack : list string) :
  string_of_list_ascii (rev (buf rooted stack))
  = (if rooted then "/" else "") ++ concat "/" (rev stack).
Proof.
  induction stack as [|e below IH].
  - destruct rooted; reflexivity.
  - rewrite buf_cons, rev_app_distr, string_of_list_ascii_app, string_of_rbytes.
    destruct below as [|b below].
    + destruct rooted; reflexivity.
    + cbn [rev] in *. rewrite string_of_list_ascii_app, IH.
      rewrite (concat_app ((rev below ++ [b])%list) [e]);
        [|intros E; apply app_eq_nil in E; destruct E; discriminate|discriminate].
      cbn [concat string_of_list_ascii]. rewrite !append_assoc. reflexivity.
Qed.

Lemma buf_nil (stack : list string) :
  shape false stack -> buf false stack = [] -> stack = [].
Proof.
  intros H E. destruct stack as [|e below]; [reflexivity|].
  pose proof (buf_length_cons false e below (shape_head_nonempty _ _ _ H)) as L.
  rewrite E in L. cbn in L. lia.
Qed.

Lemma shape_elems (rooted : bool) (es : list string) :
  Forall elem es -> forall stack, shape rooted stack ->
                                  shape rooted (clean_elems rooted stack es).
Proof.
  induction 1 as [|e es He Hes IH]; intros stack H; [exact H|].
  cbn [clean_elems fold_left]. apply IH, shape_step; assumption.
Qed.

Lemma loop_path (rooted : bool) (path : string) :
  cleanLoop rooted false path (buf rooted []) (mark rooted [])
  = buf rooted (clean_elems rooted [] (Split path Separator)).
Proof.
  rewrite <- (Join_Split path) at 1.
  apply loop_elements;
    [apply Split_all_elem | apply Split_nonempty | constructor].
Qed.

(** The loop of [Clean] over the bytes of the path computes what the
    element loop computes over its elements. *)
Theorem Clean_elements (path : string) :
  Clean path
  = render (IsAbs path) (clean_elems (IsAbs path) [] (Split path Separator)).
Proof.
  destruct path as [|c rest]; [reflexivity|].
  unfold Clean. assert (Ha : IsAbs (String c rest) = IsPathSeparator c).
  { unfold IsAbs, IsPathSeparator. rewrite HasPrefix_String.
    destruct (ascii_dec "/" c) as [<-|n].
    - destruct rest; reflexivity.
    - symmetry. apply Ascii.eqb_neq. intros ->. apply n. reflexivity. }
  rewrite Ha. destruct (IsPathSeparator c) eqn:Hc.
  - unfold IsPathSeparator in Hc. cbn [Split]. rewrite Hc.
    cbn [clean_elems fold_left]. rewrite clean_step_skip by reflexivity.
    fold (clean_elems true [] (Split rest Separator)).
    pose proof (loop_path true rest) as L.
    change (buf true []) with [Separator] in L. change (mark true []) with 1 in L.
    rewrite L. clear L.
    set (stack := clean_elems true [] (Split rest Separator)).
    destruct (buf true stack) eqn:E.
    + exfalso. destruct stack; cbn in E; [discriminate|].
      apply app_eq_nil in E. destruct E as [_ E]. destruct stack; discriminate.
    + rewrite <- E, text_buf. reflexivity.
  - pose proof (loop_path false (String c rest)) as L.
    change (buf false []) with (@nil ascii) in L.
    change (mark false []) with 0 in L.
    rewrite L. clear L.
    set (stack := clean_elems false [] (Split (String c rest) Separator)).
    assert (Hs : shape false stack)
      by (apply shape_elems; [apply Split_all_elem|constructor]).
    destruct (buf false stack) eqn:E.
    + rewrite (buf_nil stack Hs E). reflexivity.
    + rewrite <- E, text_buf. destruct stack; [discriminate|reflexivity].
Qed.

End CleanTheorem.

(* ================================================================= *)
(** ** The shape of resolved paths *)

Module ResolveFacts.
Import GoStrings Os Filepath Elements Checks StringFacts CleanFacts CleanTheorem.
Local Open Scope string_scope.

Lemma render_rooted (out : list string) :
  render true out = String Separator (concat "/" (rev out)).
Proof. reflexivity. Qed.

Lemma IsAbs_String (s : string) : IsAbs (String Separator s) = true.
Proof. unfold IsAbs. rewrite HasPrefix_String. destruct s; reflexivity. Qed.

Lemma IsAbs_render_rooted (out : list string) : IsAbs (render true out) = true.
Proof. apply IsAbs_String. Qed.

Lemma IsAbs_inv (s : string) : IsAbs s = true -> exists t, s = String Separator t.
Proof. intros H. apply HasPrefix_inv in H. exact H. Qed.

Lemma IsAbs_app (a b : string) : IsAbs a = true -> IsAbs (a ++ b) = true.
Proof. intros H. destruct (IsAbs_inv a H) as [t ->]. apply IsAbs_String. Qed.

Lemma IsAbs_app_rel (a b : string) :
  a <> "" -> IsAbs a = false -> IsAbs (a ++ b) = false.
Proof.
  destruct a as [|c a]; [congruence|]. intros _. unfold IsAbs.
  simpl append. rewrite !HasPrefix_String.
  destruct (ascii_dec "/" c); [|reflexivity].
  destruct a; discriminate.
Qed.

(** The text of a rooted buffer has the text of any buffer it extends as
    a prefix. *)
Lemma render_prefix (B more : list string) :
  HasPrefix (render true (more ++ B)) (render true B) = true.
Proof.
  rewrite !render_rooted, rev_app_distr, HasPrefix_String.
  destruct (ascii_dec Separator Separator); [|congruence].
  destruct (rev B) as [|b bs] eqn:EB.
  - destruct (concat "/" ([] ++ rev more)); reflexivity.
  - destruct (rev more) as [|m ms] eqn:EM.
    + rewrite app_nil_r. apply HasPrefix_refl.
    + rewrite concat_app by discriminate. apply HasPrefix_app.
Qed.

(** Splitting the text of a rooted buffer. *)
Lemma Split_render_rooted (out : list string) :
  Forall elem out ->
  Split (render true out) Separator
  = "" :: match rev out with [] => [""] | es => es end.
Proof.
  intros H. rewrite render_rooted.
  change (String Separator (concat "/" (rev out))) with ("" ++ String Separator (concat "/" (rev out))).
  rewrite Split_app. cbn [Split app]. f_equal.
  assert (Hr : Forall elem (rev out)) by (apply Forall_rev, H).
  destruct (rev out) as [|e es]; [reflexivity|].
  apply (Split_Join e es Hr).
Qed.

Lemma filter_kept_real (es : list string) :
  Forall real es -> filter kept es = es.
Proof.
  induction 1 as [|e es [K _] _ IH]; [reflexivity|].
  cbn [filter]. rewrite K, IH. reflexivity.
Qed.

Lemma real_no_dotdot (es : list string) : Forall real es -> ~ In ".." es.
Proof.
  intros H Hin. rewrite Forall_forall in H. destruct (H _ Hin) as [_ Hd].
  congruence.
Qed.

(** Replaying real elements rebuilds the buffer. *)
Lemma clean_elems_reals (r : bool) (out es : list string) :
  Forall real es -> clean_elems r out es = (rev es ++ out)%list.
Proof.
  intros H. rewrite clean_elems_push by (apply real_no_dotdot, H).
  rewrite filter_kept_real by exact H. reflexivity.
Qed.

(** [Clean] leaves the text of a rooted buffer as it is. *)
Lemma Clean_render_rooted (out : list string) :
  Forall real out -> Forall elem out ->
  Clean (render true out) = render true out.
Proof.
  intros Hr He. rewrite Clean_elements.
  assert (Ha : IsAbs (render true out) = true) by apply IsAbs_String.
  rewrite Ha, Split_render_rooted by exact He.
  cbn [clean_elems fold_left]. rewrite clean_step_skip by reflexivity.
  fold (clean_elems true [] match rev out with [] => [""] | es => es end).
  destruct (rev out) as [|e es] eqn:E.
  - apply (f_equal (@rev string)) in E. rewrite rev_involutive in E.
    subst out. reflexivity.
  - rewrite <- E. rewrite clean_elems_reals by (apply Forall_rev, Hr).
    rewrite rev_involutive, app_nil_r. reflexivity.
Qed.

(** The two shapes of a cleaned join. *)
Lemma Clean_join_rooted (a b : string) :
  IsAbs a = true ->
  Clean (a ++ String Separator b)
  = render true (clean_elems true (clean_elems true [] (Split a Separator)) (Split b Separator)).
Proof.
  intros H. rewrite Clean_elements, (IsAbs_app a _ H), Split_app, clean_elems_app.
  reflexivity.
Qed.

Lemma Clean_join_rel (a b : string) :
  a <> "" -> IsAbs a = false ->
  Clean (a ++ String Separator b)
  = render false (clean_elems false (clean_elems false [] (Split a Separator)) (Split b Separator)).
Proof.
  intros Hn H.
  rewrite Clean_elements, (IsAbs_app_rel a _ Hn H), Split_app, clean_elems_app.
  reflexivity.
Qed.

Lemma Join2 (a b : string) :
  a <> "" -> Join [a; b] = Clean (a ++ String Separator b).
Proof.
  intros H. cbn [Join]. apply String.eqb_neq in H. rewrite H. reflexivity.
Qed.

(** The text of a relative buffer, split again, replays to the buffer. *)
Lemma replay_render_rel (S N : list string) :
  Forall (fun x => kept x = true) N -> Forall elem N ->
  clean_elems true S (Split (render false N) Separator) = clean_elems true S (rev N).
Proof.
  intros HK HE. destruct N as [|x N]; [reflexivity|].
  unfold render. cbv iota.
  assert (Hr : Forall elem (rev (x :: N))) by (apply Forall_rev, HE).
  destruct (rev (x :: N)) as [|e es] eqn:E.
  - apply (f_equal (@List.length string)) in E.
    rewrite length_rev in E. discriminate.
  - rewrite (Split_Join e es Hr). reflexivity.
Qed.

Lemma IsAbs_render_rel (N : list string) :
  Forall (fun x => kept x = true) N -> Forall elem N ->
  IsAbs (render false N) = false /\ render false N <> "".
Proof.
  intros HK HE. destruct N as [|x N]; [split; [reflexivity|discriminate]|].
  unfold render. cbv iota.
  assert (Hr : Forall elem (rev (x :: N))) by (apply Forall_rev, HE).
  assert (Hk : Forall (fun x => kept x = true) (rev (x :: N))) by (apply Forall_rev, HK).
  destruct (rev (x :: N)) as [|e es] eqn:E.
  - apply (f_equal (@List.length string)) in E.
    rewrite length_rev in E. discriminate.
  - inversion Hr as [|? ? He _]; subst. inversion Hk as [|? ? Ke _]; subst.
    assert (Hne : e <> "") by (intros ->; discriminate).
    unfold GoStrings.Join. destruct es as [|e2 es].
    + cbn [concat]. split; [apply elem_not_abs, He | exact Hne].
    + change (concat "/" (e :: e2 :: es)) with (e ++ String Separator (concat "/" (e2 :: es))).
      split.
      * apply IsAbs_app_rel; [exact Hne | apply elem_not_abs, He].
      * destruct e; [congruence | discriminate].
Qed.

End ResolveFacts.

(* ================================================================= *)
(** ** The path checks of [Get] and [Exists] *)

Module StorageFacts.
Import GoStrings Os Filepath Storage Elements Checks.
Import StringFacts CleanFacts CleanTheorem ResolveFacts.
Local Open Scope string_scope.

Lemma bind_run {A B} (m : IO A) (k : A -> IO B) (w : World) :
  bind m k w = (fst (k (fst (m w)) w), (snd (m w) ++ snd (k (fst (m w)) w))%list).
Proof.
  unfold bind. destruct (m w) as [a t1]. cbn [fst snd].
  destruct (k a w). reflexivity.
Qed.

Lemma Abs_run (path : string) (w : World) :
  Abs path w
  = if IsAbs path then ((Clean path, None), [])
    else match cwd w with
         | inl wd => ((Join [wd; path], None), [Sys_getwd])
         | inr e => (("", Some (SyscallError "getwd" e)), [Sys_getwd])
         end.
Proof.
  unfold Abs. destruct (IsAbs path); [reflexivity|].
  unfold bind, Getwd, bind, emit, ask, ret. destruct (cwd w); reflexivity.
Qed.

Lemma Abs_ok (path : string) (w : World) :
  IsAbs path = true \/ (exists wd, cwd w = inl wd) ->
  Abs path w = ((abs_of (wd_of w) path, None),
                if IsAbs path then [] else [Sys_getwd]).
Proof.
  intros H. rewrite Abs_run. unfold abs_of, wd_of.
  destruct (IsAbs path); [reflexivity|].
  destruct H as [H|[wd H]]; [discriminate|]. rewrite H. reflexivity.
Qed.

Lemma root_buf_real (wd base : string) : Forall real (root_buf wd base).
Proof.
  unfold root_buf. destruct (IsAbs base);
    repeat apply clean_elems_rooted_real; constructor.
Qed.

Lemma root_buf_elem (wd base : string) : Forall elem (root_buf wd base).
Proof.
  unfold root_buf. destruct (IsAbs base);
    repeat (apply clean_elems_Forall; [apply Split_all_elem|]); constructor.
Qed.

Lemma IsAbs_not_empty (s : string) : IsAbs s = true -> s <> "".
Proof. intros H ->. discriminate. Qed.

Lemma abs_of_base (wd base : string) :
  IsAbs base = true \/ IsAbs wd = true ->
  abs_of wd base = render true (root_buf wd base).
Proof.
  intros H. unfold abs_of, root_buf. destruct (IsAbs base) eqn:Hb.
  - rewrite Clean_elements, Hb. reflexivity.
  - destruct H as [H|H]; [discriminate|].
    rewrite Join2 by (apply IsAbs_not_empty, H).
    apply Clean_join_rooted, H.
Qed.

(** The candidate path of a request without [..] element: the canonical
    root followed by the kept elements of the request. *)
Lemma abs_of_full (wd base c : string) :
  base <> "" ->
  IsAbs base = true \/ IsAbs wd = true ->
  ~ In ".." (Split c Separator) ->
  abs_of wd (Join [base; c])
  = render true (rev (filter kept (Split c Separator)) ++ root_buf wd base)%list.
Proof.
  intros Hne H Hc. rewrite (Join2 base c Hne).
  assert (HR : Forall real (clean_elems true (root_buf wd base) (Split c Separator)))
    by apply clean_elems_rooted_real, root_buf_real.
  assert (HE : Forall elem (clean_elems true (root_buf wd base) (Split c Separator)))
    by (apply clean_elems_Forall; [apply Split_all_elem | apply root_buf_elem]).
  rewrite <- (clean_elems_push true _ Hc).
  unfold root_buf in *. destruct (IsAbs base) eqn:Hb.
  - rewrite (Clean_join_rooted base c Hb).
    unfold abs_of. rewrite IsAbs_render_rooted.
    apply Clean_render_rooted; assumption.
  - destruct H as [H|H]; [discriminate|].
    rewrite (Clean_join_rel base c Hne Hb), <- clean_elems_app.
    set (N := clean_elems false [] (Split base Separator ++ Split c Separator)%list).
    assert (NK : Forall (fun x => kept x = true) N)
      by (apply clean_elems_kept; constructor).
    assert (NE : Forall elem N).
    { apply clean_elems_Forall; [|constructor].
      apply Forall_app; split; apply Split_all_elem. }
    destruct (IsAbs_render_rel N NK NE) as [Hrel Hnn].
    unfold abs_of. rewrite Hrel, Join2 by (apply IsAbs_not_empty, H).
    rewrite (Clean_join_rooted wd _ H), (replay_render_rel _ N NK NE).
    unfold N. rewrite replay by constructor.
    cbn [rev clean_elems fold_left]. rewrite clean_elems_app. reflexivity.
Qed.

(** A request whose cleaned form has no [..] inside has no [..] element. *)
Lemma no_dotdot_element (c : string) :
  Contains c ".." = false -> ~ In ".." (Split c Separator).
Proof.
  intros H Hin. apply Split_In_Contains in Hin. congruence.
Qed.

(** The prefix test of [Get] and [Exists] holds for every request that
    passed the first test, when the root is not empty. *)
Lemma prefix_test_passes (wd base c : string) :
  base <> "" ->
  IsAbs base = true \/ IsAbs wd = true ->
  Contains c ".." = false ->
  HasPrefix (abs_of wd (Join [base; c])) (abs_of wd base) = true.
Proof.
  intros Hne H Hc.
  rewrite abs_of_full by (auto using no_dotdot_element).
  rewrite abs_of_base by exact H. apply render_prefix.
Qed.

End StorageFacts.

(* ================================================================= *)
(** ** [Get] and [Exists] in two steps: the checks, then the file *)

Module GetFacts.
Import GoStrings Os Filepath Storage Elements Checks.
Import StringFacts CleanFacts ResolveFacts StorageFacts.
Local Open Scope string_scope.

Lemma Get_traversal (s : LocalStorage) (path : string) (w : World) :
  Contains (Clean path) ".." = true ->
  LocalStorage_Get s path w = (([], Some ErrTraversal), []).
Proof. intros H. unfold LocalStorage_Get. rewrite H. reflexivity. Qed.

Lemma Exists_traversal (s : LocalStorage) (path : string) (w : World) :
  Contains (Clean path) ".." = true ->
  LocalStorage_Exists s path w = (false, []).
Proof. intros H. unfold LocalStorage_Exists. rewrite H. reflexivity. Qed.

Lemma Abs_trace (path : string) (w : World) : no_file_call (snd (Abs path w)).
Proof.
  rewrite Abs_run. destruct (IsAbs path); [reflexivity|].
  destruct (cwd w); reflexivity.
Qed.

Lemma no_file_call_app (t1 t2 : list Event) :
  no_file_call t1 -> no_file_call t2 -> no_file_call (t1 ++ t2).
Proof.
  unfold no_file_call. intros H1 H2. rewrite existsb_app, H1, H2. reflexivity.
Qed.

(** A request the checks stop: [Get] returns one of the errors of the
    checks and no data, [Exists] returns false, and neither touches a
    file. *)
Lemma Get_rejected (s : LocalStorage) (path : string) (w : World) :
  validated s path w = false ->
  exists e, fst (LocalStorage_Get s path w) = ([], Some e)
            /\ check_error e
            /\ no_file_call (snd (LocalStorage_Get s path w)).
Proof.
  unfold validated, fullPath_of, LocalStorage_Get.
  destruct (Contains (Clean path) "..").
  - intros _. exists ErrTraversal. repeat split. left. reflexivity.
  - cbn [negb andb]. unfold bind.
    pose proof (Abs_trace (basePath s) w) as T1.
    pose proof (Abs_trace (Join [basePath s; Clean path]) w) as T2.
    destruct (Abs (basePath s) w) as [[absBase [err1|]] t1]; cbn [fst snd] in *.
    + intros _. eexists. split; [reflexivity|]. split.
      * right. right. left. eexists. reflexivity.
      * cbn [snd ret]. rewrite app_nil_r. exact T1.
    + destruct (Abs (Join [basePath s; Clean path]) w) as [[absPath [err2|]] t2];
        cbn [fst snd] in *.
      * intros _. eexists. split; [reflexivity|]. split.
        -- right. right. right. eexists. reflexivity.
        -- cbn [snd ret]. rewrite app_nil_r. apply no_file_call_app; assumption.
      * intros H. rewrite H. cbn [negb]. eexists. split; [reflexivity|]. split.
        -- right. left. reflexivity.
        -- cbn [snd ret]. rewrite app_nil_r. apply no_file_call_app; assumption.
Qed.

Lemma Exists_rejected (s : LocalStorage) (path : string) (w : World) :
  validated s path w = false ->
  fst (LocalStorage_Exists s path w) = false
  /\ no_file_call (snd (LocalStorage_Exists s path w)).
Proof.
  unfold validated, fullPath_of, LocalStorage_Exists.
  destruct (Contains (Clean path) "..").
  - intros _. split; reflexivity.
  - cbn [negb andb]. unfold bind.
    pose proof (Abs_trace (basePath s) w) as T1.
    pose proof (Abs_trace (Join [basePath s; Clean path]) w) as T2.
    destruct (Abs (basePath s) w) as [[absBase [err1|]] t1]; cbn [fst snd] in *.
    + intros _. split; [reflexivity|].
      cbn [snd ret]. rewrite app_nil_r. exact T1.
    + destruct (Abs (Join [basePath s; Clean path]) w) as [[absPath [err2|]] t2];
        cbn [fst snd] in *.
      * intros _. split; [reflexivity|].
        cbn [snd ret]. rewrite app_nil_r. apply no_file_call_app; assumption.
      * intros H. rewrite H. cbn [negb]. split; [reflexivity|].
        cbn [snd ret]. rewrite app_nil_r. apply no_file_call_app; assumption.
Qed.

Lemma Get_validated (s : LocalStorage) (path : string) (w : World) :
  validated s path w = true ->
  fst (LocalStorage_Get s path w)
  = fetched (fullPath_of s path) (files w (fullPath_of s path)).
Proof.
  unfold validated, fullPath_of, LocalStorage_Get.
  destruct (Contains (Clean path) ".."); [discriminate|].
  cbn [negb andb]. unfold bind.
  destruct (Abs (basePath s) w) as [[absBase [err1|]] t1]; cbn [fst snd];
    [discriminate|].
  destruct (Abs (Join [basePath s; Clean path]) w) as [[absPath [err2|]] t2];
    cbn [fst snd]; [discriminate|].
  intros H. rewrite H. cbn [negb].
  unfold Open, ReadAll, Close, bind, emit, ask, ret, fetched.
  destruct (files w (Join [basePath s; Clean path])) as [e|e|partial e|content] eqn:F;
    cbn [fst snd name]; try rewrite F; try reflexivity.
  - destruct (IsNotExist (PathError "open" (Join [basePath s; Clean path]) e));
      reflexivity.
  - destruct (IsNotExist (PathError "open" (Join [basePath s; Clean path]) e));
      reflexivity.
Qed.

Lemma Exists_validated (s : LocalStorage) (path : string) (w : World) :
  validated s path w = true ->
  fst (LocalStorage_Exists s path w)
  = match files w (fullPath_of s path) with
    | StatFails _ => false
    | _ => true
    end.
Proof.
  unfold validated, fullPath_of, LocalStorage_Exists.
  destruct (Contains (Clean path) ".."); [discriminate|].
  cbn [negb andb]. unfold bind.
  destruct (Abs (basePath s) w) as [[absBase [err1|]] t1]; cbn [fst snd];
    [discriminate|].
  destruct (Abs (Join [basePath s; Clean path]) w) as [[absPath [err2|]] t2];
    cbn [fst snd]; [discriminate|].
  intros H. rewrite H. cbn [negb].
  unfold Stat, bind, emit, ask, ret.
  destruct (files w (Join [basePath s; Clean path])); reflexivity.
Qed.

(** The checks pass for every request without [..] inside when the root
    is not empty and can be resolved. *)
Lemma validated_iff (s : LocalStorage) (path : string) (w : World) :
  basePath s <> "" ->
  resolvable w (basePath s) ->
  validated s path w = negb (Contains (Clean path) "..").
Proof.
  intros Hne Hres. unfold validated.
  destruct (Contains (Clean path) "..") eqn:Hc; [reflexivity|].
  cbn [negb andb].
  assert (Hw : IsAbs (basePath s) = true \/ IsAbs (wd_of w) = true).
  { destruct Hres as [H|[wd [H1 H2]]]; [left; exact H|].
    right. unfold wd_of. rewrite H1. exact H2. }
  rewrite Abs_ok.
  2:{ destruct Hres as [H|[wd [H1 _]]]; [left; exact H|right; eexists; exact H1]. }
  cbn [fst].
  pose proof (abs_of_full (wd_of w) (basePath s) (Clean path) Hne Hw
                (no_dotdot_element _ Hc)) as Hfull.
  unfold fullPath_of.
  rewrite Abs_ok.
  - cbn [fst]. apply prefix_test_passes; assumption.
  - destruct Hres as [H|[wd [H1 _]]]; [|right; eexists; exact H1].
    left. rewrite Join2 by exact Hne.
    rewrite (Clean_join_rooted _ _ H). apply IsAbs_render_rooted.
Qed.

End GetFacts.

(* ================================================================= *)
(** ** Containment *)

Module Containment.
Import GoStrings Os Filepath Storage Elements Checks Spec.
Import StringFacts CleanFacts ResolveFacts StorageFacts GetFacts.
Local Open Scope string_scope.

Lemma starts_with_app (l more : list string) : starts_with (l ++ more) l = true.
Proof.
  induction l as [|x l IH]; [reflexivity|].
  cbn [app starts_with]. rewrite String.eqb_refl, IH. reflexivity.
Qed.

Lemma filter_nonempty_real (es : list string) :
  Forall real es -> filter (fun e => negb (e =? "")) es = es.
Proof.
  induction 1 as [|e es He _ IH]; [reflexivity|].
  cbn [filter]. apply real_not_empty, String.eqb_neq in He.
  rewrite He, IH. reflexivity.
Qed.

Lemma path_elems_render (out : list string) :
  Forall real out -> Forall elem out ->
  path_elems (render true out) = rev out.
Proof.
  intros HR HE. unfold path_elems.
  rewrite Split_render_rooted by exact HE.
  cbn [filter String.eqb negb].
  destruct (rev out) as [|e es] eqn:E; [reflexivity|].
  rewrite <- E. apply filter_nonempty_real, Forall_rev, HR.
Qed.

(** A rooted buffer lies within every buffer it extends. *)
Lemma within_render (B more : list string) :
  Forall real B -> Forall elem B -> Forall real more -> Forall elem more ->
  within (render true B) (render true (more ++ B)) = true.
Proof.
  intros RB EB RM EM. unfold within.
  rewrite !path_elems_render; try (apply Forall_app; split); try assumption.
  rewrite rev_app_distr. apply starts_with_app.
Qed.

Lemma filter_kept_real_elem (es : list string) :
  ~ In ".." es -> Forall elem es ->
  Forall real (rev (filter kept es)) /\ Forall elem (rev (filter kept es)).
Proof.
  intros Hn HE. split; apply Forall_rev; rewrite Forall_forall in *; intros x Hx;
    apply filter_In in Hx; destruct Hx as [Hin K].
  - split; [exact K | intros ->; exact (Hn Hin)].
  - apply HE, Hin.
Qed.

(** With a root that is not empty, every request that passes the first
    test resolves within the canonical root. *)
Lemma candidate_within (wd base c : string) :
  base <> "" ->
  IsAbs base = true \/ IsAbs wd = true ->
  Contains c ".." = false ->
  within (abs_of wd base) (abs_of wd (Join [base; c])) = true.
Proof.
  intros Hne H Hc. pose proof (no_dotdot_element c Hc) as Hn.
  rewrite abs_of_full, abs_of_base by assumption.
  destruct (filter_kept_real_elem (Split c Separator) Hn (Split_all_elem c)).
  apply within_render; auto using root_buf_real, root_buf_elem.
Qed.


End Containment.

(* ================================================================= *)
(** ** The claims about the resolver *)

Module ResolverClaims.
Import GoStrings Os Filepath Storage Elements Checks Spec Examples.
Import StringFacts CleanFacts ResolveFacts StorageFacts GetFacts Containment.
Local Open Scope string_scope.

(** The prefix test of lines 46 and 81 taken alone accepts the sibling
    directory. *)
Lemma prefix_test_accepts_sibling :
  HasPrefix "/data/assets-evil/file" "/data/assets" = true
  /\ within "/data/assets" "/data/assets-evil/file" = false.
Proof. split; reflexivity. Qed.

(** C1, at the input where the code breaks it.  With the empty root (the
    working directory, here [/app]) and the request [/application/secret],
    the canonical root is [/app], the candidate path
    [/application/secret] does not lie within it, and [Get] opens the
    file and returns its bytes instead of an invalid-path error. *)
Theorem C1_escape_from_empty_root :
  fst (Abs (basePath (NewLocalStorage "")) container) = ("/app", None)
  /\ fst (Abs (fullPath_of (NewLocalStorage "") "/application/secret") container)
     = ("/application/secret", None)
  /\ within "/app" "/application/secret" = false
  /\ LocalStorage_Get (NewLocalStorage "") "/application/secret" container
     = ((bytes "top secret", None),
        [Sys_getwd; Sys_open "/application/secret";
         Sys_read "/application/secret"; Sys_close "/application/secret"])
  /\ fst (LocalStorage_Exists (NewLocalStorage "") "/application/secret" container)
     = true.
Proof. repeat split; reflexivity. Qed.



(** C3.  A request whose cleaned form has a [..] element is refused with
    the invalid-path error of the first test: nothing is joined, the
    working directory is not asked for, no file is touched. *)
Theorem C3_traversal_rejected (s : LocalStorage) (path : string) (w : World) :
  In ".." (Split (Clean path) Separator) ->
  LocalStorage_Get s path w = (([], Some ErrTraversal), [])
  /\ kind_of ErrTraversal = InvalidPath.
Proof.
  intros H. split; [|reflexivity].
  apply Get_traversal, Split_In_Contains, H.
Qed.

Lemma C3_traversal_rejected_witness :
  In ".." (Split (Clean "../../etc/passwd") Separator)
  /\ (LocalStorage_Get (NewLocalStorage "./assets") "../../etc/passwd" container
      = (([], Some ErrTraversal), [])
      /\ kind_of ErrTraversal = InvalidPath).
Proof.
  assert (H : In ".." (Split (Clean "../../etc/passwd") Separator))
    by (left; reflexivity).
  split; [exact H|].
  apply (C3_traversal_rejected (NewLocalStorage "./assets") "../../etc/passwd"
           container H).
Defined.

(** C9.  Two dots anywhere in the cleaned request, also inside a file
    name, stop [Get] with the invalid-path error and make [Exists] false,
    whatever the file system holds. *)
Theorem C9_two_dots_rejected (s : LocalStorage) (path : string) (w : World) :
  Contains (Clean path) ".." = true ->
  LocalStorage_Get s path w = (([], Some ErrTraversal), [])
  /\ kind_of ErrTraversal = InvalidPath
  /\ LocalStorage_Exists s path w = (false, []).
Proof.
  intros H. repeat split; [apply Get_traversal | apply Exists_traversal]; exact H.
Qed.

Lemma C9_two_dots_rejected_witness :
  Contains (Clean "notes..old.txt") ".." = true
  /\ Split (Clean "notes..old.txt") Separator = ["notes..old.txt"]
  /\ files container (fullPath_of (NewLocalStorage "./assets") "notes..old.txt")
     = Regular (bytes "old notes")
  /\ (LocalStorage_Get (NewLocalStorage "./assets") "notes..old.txt" container
      = (([], Some ErrTraversal), [])
      /\ kind_of ErrTraversal = InvalidPath
      /\ LocalStorage_Exists (NewLocalStorage "./assets") "notes..old.txt" container
         = (false, [])).
Proof.
  split; [reflexivity|]. split; [reflexivity|]. split; [reflexivity|].
  apply (C9_two_dots_rejected (NewLocalStorage "./assets") "notes..old.txt" container).
  reflexivity.
Defined.

End ResolverClaims.

(* ================================================================= *)
(** ** Reading the file: round trip, absence, existence *)

Module FileClaims.
Import GoStrings Os Filepath Storage Elements Checks Spec Examples.
Import StringFacts CleanFacts ResolveFacts StorageFacts GetFacts Containment.
Local Open Scope string_scope.

(** Past the checks, [Get] opens [fullPath], reads it and closes it. *)
Lemma Get_validated_trace (s : LocalStorage) (path : string) (w : World)
  (content : list byte) :
  validated s path w = true ->
  files w (fullPath_of s path) = Regular content ->
  exists pre,
    snd (LocalStorage_Get s path w)
    = (pre ++ [Sys_open (fullPath_of s path); Sys_read (fullPath_of s path);
               Sys_close (fullPath_of s path)])%list
    /\ no_file_call pre.
Proof.
  unfold validated, fullPath_of, LocalStorage_Get.
  destruct (Contains (Clean path) ".."); [discriminate|].
  cbn [negb andb]. unfold bind.
  pose proof (Abs_trace (basePath s) w) as T1.
  pose proof (Abs_trace (Join [basePath s; Clean path]) w) as T2.
  destruct (Abs (basePath s) w) as [[absBase [err1|]] t1]; cbn [fst snd] in *;
    [discriminate|].
  destruct (Abs (Join [basePath s; Clean path]) w) as [[absPath [err2|]] t2];
    cbn [fst snd] in *; [discriminate|].
  intros H F. rewrite H. cbn [negb].
  unfold Open, ReadAll, Close, bind, emit, ask, ret.
  rewrite F. cbn [fst snd name app].
  exists (t1 ++ t2)%list. split.
  - rewrite <- !app_assoc. reflexivity.
  - apply no_file_call_app; assumption.
Qed.

(** The checks pass for [sub/dir/file.bin] under every root, the empty
    one included. *)
Lemma validated_sub_dir_file (s : LocalStorage) (w : World) :
  resolvable w (basePath s) ->
  validated s "sub/dir/file.bin" w = true.
Proof.
  intros Hres. destruct (String.eqb_spec (basePath s) "") as [He|Hne].
  - destruct Hres as [H|[wd [H1 H2]]]; [rewrite He in H; discriminate|].
    unfold validated, fullPath_of. rewrite He.
    change (Clean "sub/dir/file.bin") with "sub/dir/file.bin".
    change (Join [""; "sub/dir/file.bin"]) with "sub/dir/file.bin".
    cbn [Contains negb andb].
    rewrite !Abs_run. cbn [IsAbs]. rewrite H1. cbn [fst].
    rewrite !Join2 by (apply IsAbs_not_empty, H2).
    rewrite !(Clean_join_rooted wd _ H2).
    apply (render_prefix _ ["file.bin"; "dir"; "sub"]).
  - rewrite validated_iff by assumption. reflexivity.
Qed.

(** C7.  A file present at [root/sub/dir/file.bin] with content [B] is
    returned whole by [Get] for the request [sub/dir/file.bin]: the file is
    opened, read and closed, and nothing else is touched.  The root is
    absolute, or the working directory is known and absolute. *)
Theorem C7_round_trip (s : LocalStorage) (w : World) (B : list byte) :
  resolvable w (basePath s) ->
  files w (Join [basePath s; "sub/dir/file.bin"]) = Regular B ->
  fst (LocalStorage_Get s "sub/dir/file.bin" w) = (B, None)
  /\ exists pre,
       snd (LocalStorage_Get s "sub/dir/file.bin" w)
       = (pre ++ [Sys_open (Join [basePath s; "sub/dir/file.bin"]);
                  Sys_read (Join [basePath s; "sub/dir/file.bin"]);
                  Sys_close (Join [basePath s; "sub/dir/file.bin"])])%list
       /\ no_file_call pre.
Proof.
  intros Hres F. pose proof (validated_sub_dir_file s w Hres) as V.
  split.
  - rewrite (Get_validated s _ w V).
    change (fullPath_of s "sub/dir/file.bin")
      with (Join [basePath s; "sub/dir/file.bin"]).
    rewrite F. reflexivity.
  - apply (Get_validated_trace s "sub/dir/file.bin" w B V F).
Qed.

Lemma C7_round_trip_witness :
  resolvable container "./assets"
  /\ files container (Join ["./assets"; "sub/dir/file.bin"]) = Regular (bytes "B")
  /\ fst (LocalStorage_Get (NewLocalStorage "./assets") "sub/dir/file.bin" container)
     = (bytes "B", None).
Proof.
  assert (R : resolvable container "./assets")
    by (right; exists "/app"; split; reflexivity).
  split; [exact R|]. split; [reflexivity|].
  apply (C7_round_trip (NewLocalStorage "./assets") container (bytes "B") R).
  reflexivity.
Defined.

(** C8.  [Exists] runs the checks of [Get]: a request they stop gives
    false from [Exists] and an error of the checks from [Get], and neither
    touches a file; an absent file gives false from [Exists]; past the
    checks, [Get] answers an absent file with the not-found error and any
    other failure to open with an error of another kind. *)
Theorem C8_exists_and_absent (s : LocalStorage) (path : string) (w : World) :
  (validated s path w = false ->
     fst (LocalStorage_Exists s path w) = false
     /\ no_file_call (snd (LocalStorage_Exists s path w))
     /\ exists e, fst (LocalStorage_Get s path w) = ([], Some e)
                  /\ check_error e
                  /\ no_file_call (snd (LocalStorage_Get s path w)))
  /\ (files w (fullPath_of s path) = StatFails ENOENT ->
        fst (LocalStorage_Exists s path w) = false)
  /\ (validated s path w = true ->
        fst (LocalStorage_Exists s path w)
        = match files w (fullPath_of s path) with
          | StatFails _ => false
          | _ => true
          end
        /\ fst (LocalStorage_Get s path w)
           = fetched (fullPath_of s path) (files w (fullPath_of s path)))
  /\ (validated s path w = true ->
      files w (fullPath_of s path) = StatFails ENOENT ->
        fst (LocalStorage_Get s path w) = ([], Some ErrNotFound)
        /\ kind_of ErrNotFound = NotFound)
  /\ (validated s path w = true ->
      forall e, e <> ENOENT ->
        files w (fullPath_of s path) = StatFails e
        \/ files w (fullPath_of s path) = OpenFails e ->
        exists err, fst (LocalStorage_Get s path w) = ([], Some err)
                    /\ kind_of err = IOError).
Proof.
  repeat split.
  - apply Exists_rejected; assumption.
  - apply Exists_rejected; assumption.
  - apply Get_rejected; assumption.
  - intros F. destruct (validated s path w) eqn:V.
    + rewrite (Exists_validated s path w V), F. reflexivity.
    + apply Exists_rejected, V.
  - apply Exists_validated; assumption.
  - apply Get_validated; assumption.
  - rewrite (Get_validated s path w H), H0. reflexivity.
  - intros V e He F. rewrite (Get_validated s path w V).
    assert (N : IsNotExist (PathError "open" (fullPath_of s path) e) = false)
      by (destruct e; try reflexivity; congruence).
    destruct F as [F|F]; rewrite F; cbn [fetched]; rewrite N;
      eexists; (split; [reflexivity|]); reflexivity.
Qed.

Lemma C8_exists_and_absent_witness :
  validated (NewLocalStorage "./assets") "missing.png" container = true
  /\ files container (fullPath_of (NewLocalStorage "./assets") "missing.png")
     = StatFails ENOENT
  /\ validated (NewLocalStorage "./assets") "../x" container = false
  /\ fst (LocalStorage_Exists (NewLocalStorage "./assets") "missing.png" container)
     = false
  /\ fst (LocalStorage_Get (NewLocalStorage "./assets") "missing.png" container)
     = ([], Some ErrNotFound)
  /\ fst (LocalStorage_Exists (NewLocalStorage "./assets") "../x" container) = false.
Proof.
  assert (V : validated (NewLocalStorage "./assets") "missing.png" container = true)
    by reflexivity.
  assert (F : files container (fullPath_of (NewLocalStorage "./assets") "missing.png")
              = StatFails ENOENT) by reflexivity.
  assert (R : validated (NewLocalStorage "./assets") "../x" container = false)
    by reflexivity.
  destruct (C8_exists_and_absent (NewLocalStorage "./assets") "missing.png" container)
    as (_ & E & _ & G & _).
  destruct (C8_exists_and_absent (NewLocalStorage "./assets") "../x" container)
    as (X & _).
  split; [exact V|]. split; [exact F|]. split; [exact R|].
  split; [exact (E F)|]. split; [exact (proj1 (G V F))|].
  exact (proj1 (X R)).
Defined.

End FileClaims.

(* ================================================================= *)
(** ** The claims about the asset handler *)

Module HandlerClaims.
Import GoStrings Os Filepath Storage Main Elements Checks Spec Examples.
Import StorageFacts.
Local Open Scope string_scope.

(** *** Content type *)

Lemma slice_to_ok (data : list byte) (hi : nat) :
  hi <= List.length data -> slice_to data hi = Some (firstn hi data).
Proof.
  intros H. unfold slice_to. apply Nat.leb_le in H. rewrite H. reflexivity.
Qed.

(** The sniffing condition never slices out of range. *)
Lemma looksLikeSVG_run (data : list byte) :
  looksLikeSVG data
  = Some ((5 <=? List.length data)%nat
          && (leading 4 data "<svg" || leading 5 data "<?xml")).
Proof.
  unfold looksLikeSVG, leading.
  destruct (Nat.ltb_spec 4 (List.length data)) as [H|H].
  - rewrite !slice_to_ok by lia.
    replace (5 <=? List.length data)%nat with true
      by (symmetry; apply Nat.leb_le; lia).
    replace (4 <=? List.length data)%nat with true
      by (symmetry; apply Nat.leb_le; lia).
    cbn [andb].
    destruct (string_of_list_byte (firstn 4 data) =? "<svg"); reflexivity.
  - replace (5 <=? List.length data)%nat with false
      by (symmetry; apply Nat.leb_gt; lia).
    reflexivity.
Qed.

(** The classifier never panics. *)
Lemma detectContentType_run (contentType : string) (data : list byte) :
  detectContentType contentType data
  = Some (if (5 <=? List.length data)%nat
             && (leading 4 data "<svg" || leading 5 data "<?xml")
          then "image/svg+xml"
          else if contentType =? "" then "application/octet-stream"
          else contentType).
Proof.
  unfold detectContentType. rewrite looksLikeSVG_run.
  destruct ((5 <=? List.length data)%nat
            && (leading 4 data "<svg" || leading 5 data "<?xml"));
    [reflexivity|].
  destruct (contentType =? ""); reflexivity.
Qed.

(** C4 as stated fails: a content of exactly the four bytes [<svg] named
    [x.jpg] gets the type of its extension from the handler, and
    [image/svg+xml] from the reference definition. *)
Lemma C4_counterexample :
  contentTypeOf jpegOnly "x.jpg" (bytes "<svg") = Some "image/jpeg"
  /\ reference_content_type jpegOnly "x.jpg" (bytes "<svg") = "image/svg+xml"
  /\ contentTypeOf jpegOnly "x.jpg" (bytes "<svg")
     <> Some (reference_content_type jpegOnly "x.jpg" (bytes "<svg")).
Proof. repeat split. discriminate. Qed.

(** C4, amended.  For every table of extensions, path and content, the
    handler's content type is the guarded reference definition: the two
    markers count only in a content of at least five bytes; and on such a
    content the guarded definition is the one of the claim. *)
Theorem C4_content_type (byExtension : string -> string) (path : string)
  (data : list byte) :
  contentTypeOf byExtension path data
  = Some (guarded_content_type byExtension path data)
  /\ ((5 <=? List.length data)%nat = true ->
      guarded_content_type byExtension path data
      = reference_content_type byExtension path data).
Proof.
  split.
  - unfold contentTypeOf, guarded_content_type.
    apply detectContentType_run.
  - intros H. unfold guarded_content_type, reference_content_type.
    rewrite H. reflexivity.
Qed.

Lemma C4_content_type_witness :
  (5 <=? List.length (bytes "<svg width"))%nat = true
  /\ contentTypeOf jpegOnly "x.jpg" (bytes "<svg width") = Some "image/svg+xml"
  /\ guarded_content_type jpegOnly "x.jpg" (bytes "<svg width")
     = reference_content_type jpegOnly "x.jpg" (bytes "<svg width").
Proof.
  split; [reflexivity|]. split; [reflexivity|].
  apply (proj2 (C4_content_type jpegOnly "x.jpg" (bytes "<svg width"))).
  reflexivity.
Defined.

(** C5.  A content shorter than five bytes never makes the classifier
    slice out of range: the sniffing condition is false, and the type is the
    one of the extension, or the default when there is none. *)
Theorem C5_short_content (contentType : string) (data : list byte) :
  List.length data < 5 ->
  looksLikeSVG data = Some false
  /\ detectContentType contentType data
     = Some (if contentType =? "" then "application/octet-stream"
             else contentType).
Proof.
  intros H. assert (L : looksLikeSVG data = Some false).
  { rewrite looksLikeSVG_run.
    replace (5 <=? List.length data)%nat with false
      by (symmetry; apply Nat.leb_gt; lia).
    reflexivity. }
  split; [exact L|]. unfold detectContentType. rewrite L.
  destruct (contentType =? ""); reflexivity.
Qed.

Lemma C5_short_content_witness :
  (List.length (bytes "<sv") < 5
   /\ detectContentType "image/jpeg" (bytes "<sv") = Some "image/jpeg")
  /\ (List.length (bytes "") < 5
      /\ detectContentType "" (bytes "") = Some "application/octet-stream")
  /\ (List.length (bytes "<svg") < 5
      /\ detectContentType "image/jpeg" (bytes "<svg") = Some "image/jpeg").
Proof.
  assert (H3 : List.length (bytes "<sv") < 5) by (cbn; lia).
  assert (H0 : List.length (bytes "") < 5) by (cbn; lia).
  assert (H4 : List.length (bytes "<svg") < 5) by (cbn; lia).
  split; [split; [exact H3|]|split; [split; [exact H0|]|split; [exact H4|]]].
  - exact (proj2 (C5_short_content "image/jpeg" (bytes "<sv") H3)).
  - exact (proj2 (C5_short_content "" (bytes "") H0)).
  - exact (proj2 (C5_short_content "image/jpeg" (bytes "<svg") H4)).
Defined.

(** *** The reply *)

Lemma reply_error (rw : Http.ResponseWriter) (assetPath : string)
  (data : list byte) (err : error) (w : World) :
  fst (reply rw assetPath (data, Some err) w)
  = Returned (Http.Error rw "not found" Http.StatusNotFound).
Proof. unfold reply. rewrite bind_run. reflexivity. Qed.

Lemma reply_ok (rw : Http.ResponseWriter) (assetPath : string)
  (data : list byte) (w : World) :
  fst (reply rw assetPath (data, None) w)
  = match detectContentType (mimeTypes w (Ext assetPath)) data with
    | None => Panicked
    | Some contentType =>
        Returned
          (Http.Write data
             (Http.SetHeader "Cache-Control" "public, max-age=31536000"
                (Http.SetHeader "Content-Type" contentType rw)))
    end.
Proof.
  unfold reply. rewrite bind_run.
  change (fst (Mime.TypeByExtension (Ext assetPath) w))
    with (mimeTypes w (Ext assetPath)).
  destruct (detectContentType (mimeTypes w (Ext assetPath)) data); reflexivity.
Qed.

Lemma selectStore_local (base loc : string) (w : World) :
  fst (selectStore base loc w) = LocalStorage_Storage (NewLocalStorage base).
Proof.
  unfold selectStore. destruct (loc =? "bucket").
  - rewrite bind_run. reflexivity.
  - destruct (loc =? "local"); reflexivity.
Qed.

(** The reply of the handler is the reply to what [Get] of the local
    storage returns. *)
Lemma serveAsset_run (urlPath : string) (w : World) :
  fst (serveAsset urlPath w)
  = fst (reply Http.NewRecorder (TrimPrefix urlPath "/assets/")
           (fst (LocalStorage_Get (NewLocalStorage (base_of w))
                   (TrimPrefix urlPath "/assets/") w)) w).
Proof.
  unfold serveAsset, assetHandler. rewrite !bind_run. cbn [fst].
  rewrite selectStore_local. reflexivity.
Qed.

(** The handler never panics: the sniffing never slices out of range. *)
Lemma serveAsset_returns (urlPath : string) (w : World) :
  exists rw, fst (serveAsset urlPath w) = Returned rw.
Proof.
  rewrite serveAsset_run.
  destruct (fst (LocalStorage_Get _ _ w)) as [data [err|]].
  - rewrite reply_error. eexists. reflexivity.
  - rewrite reply_ok, detectContentType_run. eexists. reflexivity.
Qed.

(** C6.  Whatever error [Get] returns, the handler replies as
    [http.Error(w, "not found", 404)] does on a fresh writer: the status
    404 and the body [not found] (followed by the line feed [http.Error]
    appends), the same reply for every error; the error is not in it. *)
Theorem C6_errors_look_alike (urlPath : string) (w : World)
  (data : list byte) (err : error) :
  fst (LocalStorage_Get (NewLocalStorage (base_of w))
         (TrimPrefix urlPath "/assets/") w) = (data, Some err) ->
  fst (serveAsset urlPath w)
  = Returned (Http.Error Http.NewRecorder "not found" Http.StatusNotFound)
  /\ Http.Error Http.NewRecorder "not found" Http.StatusNotFound = notFoundReply.
Proof.
  intros H. split; [|reflexivity].
  rewrite serveAsset_run, H, reply_error. reflexivity.
Qed.

Lemma C6_errors_look_alike_witness :
  (fst (LocalStorage_Get (NewLocalStorage (base_of container))
          (TrimPrefix "/assets/missing.png" "/assets/") container)
   = ([], Some ErrNotFound)
   /\ fst (serveAsset "/assets/missing.png" container) = Returned notFoundReply)
  /\ (fst (LocalStorage_Get (NewLocalStorage (base_of container))
             (TrimPrefix "/assets/../../etc/passwd" "/assets/") container)
      = ([], Some ErrTraversal)
      /\ fst (serveAsset "/assets/../../etc/passwd" container)
         = Returned notFoundReply).
Proof.
  split; (split; [reflexivity|]).
  - destruct (C6_errors_look_alike "/assets/missing.png" container []
                ErrNotFound eq_refl) as [R E].
    rewrite R, E. reflexivity.
  - destruct (C6_errors_look_alike "/assets/../../etc/passwd" container []
                ErrTraversal eq_refl) as [R E].
    rewrite R, E. reflexivity.
Defined.

(** [Get] reads the working directory and the files only. *)
Lemma Get_ignores_flag (s : LocalStorage) (path : string) (w : World)
  (loc : string) :
  LocalStorage_Get s path (with_storage_location w loc)
  = LocalStorage_Get s path w.
Proof.
  unfold LocalStorage_Get.
  destruct (Contains (Filepath.Clean path) ".."); [reflexivity|].
  unfold bind.
  repeat first
    [ reflexivity
    | progress (rewrite !Abs_run; cbn [cwd with_storage_location])
    | match goal with
      | |- context [if IsAbs ?p then _ else _] => destruct (IsAbs p)
      | |- context [match cwd w with inl _ => _ | inr _ => _ end] =>
          destruct (cwd w)
      | |- context [negb (HasPrefix ?a ?b)] => destruct (negb (HasPrefix a b))
      end; cbv beta iota ].
  all: unfold Open, ReadAll, Close, bind, emit, ask, ret;
    cbn [files with_storage_location];
    destruct (files w (Join [basePath s; Clean path])); try reflexivity;
    match goal with
    | |- context [IsNotExist ?e] => destruct (IsNotExist e)
    end; reflexivity.
Qed.

Lemma reply_ignores_flag (rw : Http.ResponseWriter) (assetPath : string)
  (got : list byte * option error) (w : World) (loc : string) :
  fst (reply rw assetPath got (with_storage_location w loc))
  = fst (reply rw assetPath got w).
Proof.
  destruct got as [data [err|]].
  - rewrite !reply_error. reflexivity.
  - rewrite !reply_ok. reflexivity.
Qed.

(** C10.  The reply does not depend on the flag: for every value of
    [ImageStorageLocation] the store is the local one on the same base
    path, and two worlds that differ in the flag only get the same
    reply. *)
Theorem C10_flag_independent (urlPath : string) (w : World) (loc1 loc2 : string) :
  fst (selectStore (base_of w) loc1 w)
  = LocalStorage_Storage (NewLocalStorage (base_of w))
  /\ fst (serveAsset urlPath (with_storage_location w loc1))
     = fst (serveAsset urlPath (with_storage_location w loc2)).
Proof.
  split; [apply selectStore_local|].
  rewrite !serveAsset_run.
  change (base_of (with_storage_location w loc1)) with (base_of w).
  change (base_of (with_storage_location w loc2)) with (base_of w).
  rewrite !Get_ignores_flag, !reply_ignores_flag. reflexivity.
Qed.

End HandlerClaims.

(* ================================================================= *)
(** ** [Get] and [Exists]: the whole run *)

Module RunFacts.
Import GoStrings Os Filepath Storage Elements Checks Spec Calls.
Import StringFacts CleanFacts ResolveFacts StorageFacts GetFacts.
Local Open Scope string_scope.

(** Past the checks, the run of [Get]: the two calls of [Abs], then the
    calls on the file. *)
Lemma Get_validated_run (s : LocalStorage) (path : string) (w : World) :
  validated s path w = true ->
  LocalStorage_Get s path w
  = (fetched (fullPath_of s path) (files w (fullPath_of s path)),
     (snd (Abs (basePath s) w) ++ snd (Abs (fullPath_of s path) w)
      ++ file_calls (fullPath_of s path) (files w (fullPath_of s path)))%list).
Proof.
  unfold validated, fullPath_of, LocalStorage_Get.
  destruct (Contains (Clean path) ".."); [discriminate|].
  cbn [negb andb]. unfold bind.
  destruct (Abs (basePath s) w) as [[absBase [err1|]] t1]; cbn [fst snd];
    [discriminate|].
  destruct (Abs (Join [basePath s; Clean path]) w) as [[absPath [err2|]] t2];
    cbn [fst snd]; [discriminate|].
  intros H. rewrite H. cbn [negb].
  unfold Open, ReadAll, Close, bind, emit, ask, ret, fetched, file_calls.
  destruct (files w (Join [basePath s; Clean path])) as [e|e|partial e|content] eqn:F;
    cbn [fst snd name]; try rewrite F;
    try (destruct (IsNotExist (PathError "open" (Join [basePath s; Clean path]) e)));
    cbn [app]; rewrite <- ?app_assoc; reflexivity.
Qed.

Lemma Exists_validated_run (s : LocalStorage) (path : string) (w : World) :
  validated s path w = true ->
  LocalStorage_Exists s path w
  = (match files w (fullPath_of s path) with StatFails _ => false | _ => true end,
     (snd (Abs (basePath s) w) ++ snd (Abs (fullPath_of s path) w)
      ++ [Sys_stat (fullPath_of s path)])%list).
Proof.
  unfold validated, fullPath_of, LocalStorage_Exists.
  destruct (Contains (Clean path) ".."); [discriminate|].
  cbn [negb andb]. unfold bind.
  destruct (Abs (basePath s) w) as [[absBase [err1|]] t1]; cbn [fst snd];
    [discriminate|].
  destruct (Abs (Join [basePath s; Clean path]) w) as [[absPath [err2|]] t2];
    cbn [fst snd]; [discriminate|].
  intros H. rewrite H. cbn [negb].
  unfold Stat, bind, emit, ask, ret.
  destruct (files w (Join [basePath s; Clean path]));
    cbn [fst snd app]; rewrite <- ?app_assoc; reflexivity.
Qed.

Lemma Abs_pair_trace (a b : string) (w : World) :
  no_file_call (snd (Abs a w) ++ snd (Abs b w)).
Proof. apply no_file_call_app; apply Abs_trace. Qed.

Lemma no_file_call_In (t : list Event) (e : Event) :
  no_file_call t -> In e t -> on_file e = false.
Proof.
  unfold no_file_call. intros H Hin.
  destruct (on_file e) eqn:E; [|reflexivity].
  assert (X : existsb on_file t = true)
    by (apply existsb_exists; exists e; split; assumption).
  congruence.
Qed.

Lemma file_of_on_file (e : Event) (name : string) :
  file_of e = Some name -> on_file e = true.
Proof. destruct e; cbn; congruence. Qed.

Lemma validated_cases (s : LocalStorage) (path : string) (w : World) :
  validated s path w = true \/ validated s path w = false.
Proof. destruct (validated s path w); auto. Qed.

(** Every call of [Get] and of [Exists] on a file is on the joined path,
    and is made past the checks. *)
Lemma file_events (s : LocalStorage) (path : string) (w : World) (e : Event)
  (name : string) :
  In e (snd (LocalStorage_Get s path w)) \/ In e (snd (LocalStorage_Exists s path w)) ->
  file_of e = Some name ->
  name = fullPath_of s path /\ validated s path w = true.
Proof.
  intros Hin Hf. pose proof (file_of_on_file e name Hf) as Ho.
  destruct (validated_cases s path w) as [V|V].
  - split; [|exact V].
    rewrite (Get_validated_run s path w V), (Exists_validated_run s path w V) in Hin.
    cbn [snd] in Hin. rewrite !app_assoc in Hin.
    destruct Hin as [Hin|Hin]; apply in_app_or in Hin; destruct Hin as [Hin|Hin].
    + apply (no_file_call_In _ _ (Abs_pair_trace _ _ w)) in Hin. congruence.
    + destruct (files w (fullPath_of s path)); cbn [file_calls In] in Hin.
      all: repeat (destruct Hin as [Hin|Hin];
                   [subst e; cbn [file_of] in Hf; congruence|]).
      all: destruct Hin.
    + apply (no_file_call_In _ _ (Abs_pair_trace _ _ w)) in Hin. congruence.
    + destruct Hin as [Hin|[]]. subst e. cbn [file_of] in Hf. congruence.
  - destruct (Get_rejected s path w V) as (x & _ & _ & T).
    destruct (Exists_rejected s path w V) as [_ T'].
    destruct Hin as [Hin|Hin];
      [apply (no_file_call_In _ _ T) in Hin | apply (no_file_call_In _ _ T') in Hin];
      congruence.
Qed.

Lemma Abs_events (path : string) (w : World) (e : Event) :
  In e (snd (Abs path w)) -> e = Sys_getwd.
Proof.
  rewrite Abs_run. destruct (IsAbs path); [intros []|].
  destruct (cwd w); intros [<-|[]]; reflexivity.
Qed.

(** The calls of [Get]: [os.Getwd], and calls on a file. *)
Lemma Get_events (s : LocalStorage) (path : string) (w : World) (e : Event) :
  In e (snd (LocalStorage_Get s path w)) ->
  e = Sys_getwd \/ exists name, file_of e = Some name.
Proof.
  destruct (validated_cases s path w) as [V|V].
  - rewrite (Get_validated_run s path w V). cbn [snd]. rewrite app_assoc.
    intros Hin. apply in_app_or in Hin. destruct Hin as [Hin|Hin].
    + left. apply in_app_or in Hin.
      destruct Hin as [Hin|Hin]; apply Abs_events in Hin; exact Hin.
    + right. destruct (files w (fullPath_of s path)); cbn [file_calls In] in Hin;
        repeat (destruct Hin as [Hin|Hin]; [subst e; eexists; reflexivity|]);
        destruct Hin.
  - unfold validated, fullPath_of in V. unfold LocalStorage_Get.
    destruct (Contains (Clean path) ".."); [intros []|].
    cbn [negb andb] in V. unfold bind.
    pose proof (Abs_events (basePath s) w e) as E1.
    pose proof (Abs_events (Join [basePath s; Clean path]) w e) as E2.
    destruct (Abs (basePath s) w) as [[absBase [err1|]] t1]; cbn [fst snd] in *.
    + cbn [ret snd]. rewrite app_nil_r. intros Hin. left. exact (E1 Hin).
    + destruct (Abs (Join [basePath s; Clean path]) w) as [[absPath [err2|]] t2];
        cbn [fst snd] in *.
      * cbn [ret snd]. rewrite app_nil_r. intros Hin. left. apply in_app_or in Hin.
        destruct Hin as [Hin|Hin]; auto.
      * rewrite V. cbn [negb snd ret]. rewrite app_nil_r. intros Hin. left.
        apply in_app_or in Hin. destruct Hin as [Hin|Hin]; auto.
Qed.

(** Past the checks of a root that is not empty, the joined path lies
    within the canonical root. *)
Lemma validated_within (s : LocalStorage) (path : string) (w : World) :
  basePath s <> "" ->
  resolvable w (basePath s) ->
  validated s path w = true ->
  within (abs_of (wd_of w) (basePath s)) (abs_of (wd_of w) (fullPath_of s path))
  = true.
Proof.
  intros Hne Hres V. unfold fullPath_of.
  rewrite validated_iff in V by assumption. apply negb_true_iff in V.
  apply Containment.candidate_within; [exact Hne| |exact V].
  destruct Hres as [H|[wd [H1 H2]]]; [left; exact H|].
  right. unfold wd_of. rewrite H1. exact H2.
Qed.

End RunFacts.

(* ================================================================= *)
(** ** Cleaning twice, and cleaning a rooted request *)

Module CleanAgain.
Import GoStrings Os Filepath Storage Elements Checks.
Import StringFacts CleanFacts CleanLoopFacts CleanTheorem ResolveFacts StorageFacts.
Local Open Scope string_scope.

Lemma shape_below (e : string) (below : list string) :
  shape false (e :: below) -> shape false below.
Proof.
  intros H. inversion H as [|b _ Hb|x b _ _ Hs]; subst; [|exact Hs].
  destruct Hb as [|y b Hy Hb]; [constructor|]. subst y.
  apply shape_up; [reflexivity|exact Hb].
Qed.

(** The element loop rebuilds a stack from its own elements. *)
Lemma clean_elems_shape (stack : list string) :
  shape false stack -> clean_elems false [] (rev stack) = stack.
Proof.
  induction stack as [|e below IH]; intros H; [reflexivity|].
  cbn [rev]. rewrite clean_elems_app, (IH (shape_below _ _ H)).
  cbn [clean_elems fold_left].
  inversion H as [|b _ Hb|x b R _ _]; subst.
  - rewrite clean_step_dotdot. destruct Hb as [|y b Hy Hb]; [reflexivity|].
    subst y. reflexivity.
  - apply clean_step_real, R.
Qed.

Lemma shape_kept (r : bool) (stack : list string) :
  shape r stack -> Forall (fun x => kept x = true) stack.
Proof.
  induction 1 as [|below _ Hb|e below [K _] _ _ IH].
  - constructor.
  - constructor; [reflexivity|].
    induction Hb as [|y b Hy _ IHb]; constructor; [subst y; reflexivity|exact IHb].
  - constructor; assumption.
Qed.

(** The text of a relative stack that is not empty, split again. *)
Lemma Split_render_rel (N : list string) :
  N <> [] -> Forall elem N ->
  render false N = GoStrings.Join (rev N) "/"
  /\ Split (render false N) Separator = rev N.
Proof.
  intros Hn HE. destruct N as [|x N]; [congruence|].
  unfold render. cbv iota. split; [reflexivity|].
  assert (Hr : Forall elem (rev (x :: N))) by (apply Forall_rev, HE).
  destruct (rev (x :: N)) as [|e es] eqn:E.
  - apply (f_equal (@List.length string)) in E.
    rewrite length_rev in E. discriminate.
  - apply (Split_Join e es Hr).
Qed.

(** [filepath.Clean] is idempotent. *)
Lemma Clean_Clean (path : string) : Clean (Clean path) = Clean path.
Proof.
  rewrite (Clean_elements path).
  set (N := clean_elems (IsAbs path) [] (Split path Separator)).
  assert (HE : Forall elem N)
    by (apply clean_elems_Forall; [apply Split_all_elem|constructor]).
  destruct (IsAbs path) eqn:Ha.
  - apply Clean_render_rooted; [|exact HE].
    apply clean_elems_rooted_real. constructor.
  - assert (HS : shape false N)
      by (apply shape_elems; [apply Split_all_elem|constructor]).
    destruct N as [|x N'] eqn:EN; [reflexivity|].
    rewrite <- EN in *.
    assert (Hn : N <> []) by (rewrite EN; discriminate).
    destruct (Split_render_rel N Hn HE) as [_ Sp].
    destruct (IsAbs_render_rel N (shape_kept _ _ HS) HE) as [Hrel _].
    rewrite (Clean_elements (render false N)), Hrel, Sp, clean_elems_shape by exact HS.
    reflexivity.
Qed.

(** A [..] in the stack of a relative path stays there. *)
Lemma dotdot_stays (es : list string) :
  forall out, In ".." out -> In ".." (clean_elems false out es).
Proof.
  induction es as [|e es IH]; intros out H; [exact H|].
  cbn [clean_elems fold_left]. apply IH.
  destruct (kept_cases e) as [K|[->|R]].
  - rewrite clean_step_skip by assumption. exact H.
  - rewrite clean_step_dotdot. destruct out as [|top below]; [left; reflexivity|].
    destruct (String.eqb_spec top "..") as [->|Ht]; [left; reflexivity|].
    destruct H as [H|H]; [congruence|exact H].
  - rewrite clean_step_real by assumption. right. exact H.
Qed.

(** Rooted or not, the loop builds the same stack, unless the relative one
    holds a [..]. *)
Lemma rooted_as_relative (es : list string) :
  forall out, ~ In ".." (clean_elems false out es) ->
              clean_elems true out es = clean_elems false out es.
Proof.
  induction es as [|e es IH]; intros out H; [reflexivity|].
  cbn [clean_elems fold_left] in *.
  fold (clean_elems false (clean_step false out e) es) in H.
  fold (clean_elems false (clean_step false out e) es).
  fold (clean_elems true (clean_step true out e) es).
  assert (E : clean_step true out e = clean_step false out e).
  { destruct (kept_cases e) as [K|[->|R]].
    - rewrite !clean_step_skip by assumption. reflexivity.
    - rewrite !clean_step_dotdot. destruct out as [|top below]; [|reflexivity].
      exfalso. apply H. rewrite clean_step_dotdot.
      apply dotdot_stays. left. reflexivity.
    - rewrite !clean_step_real by assumption. reflexivity. }
  rewrite E. apply IH, H.
Qed.

(** A relative path whose cleaned form has no [..] inside has no [..] in
    its stack. *)
Lemma stack_without_dotdot (path : string) :
  IsAbs path = false ->
  Contains (Clean path) ".." = false ->
  ~ In ".." (clean_elems false [] (Split path Separator)).
Proof.
  intros Ha Hc Hin. rewrite Clean_elements, Ha in Hc.
  set (N := clean_elems false [] (Split path Separator)) in *.
  assert (HE : Forall elem N)
    by (apply clean_elems_Forall; [apply Split_all_elem|constructor]).
  assert (Hn : N <> []) by (intros E; rewrite E in Hin; exact Hin).
  destruct (Split_render_rel N Hn HE) as [_ Sp].
  assert (X : Contains (render false N) ".." = true).
  { apply Split_In_Contains. rewrite Sp. apply in_rev in Hin. exact Hin. }
  congruence.
Qed.

Lemma Clean_rooted (path : string) :
  Clean (String Separator path)
  = render true (clean_elems true [] (Split path Separator)).
Proof.
  rewrite Clean_elements, IsAbs_String.
  change (String Separator path) with ("" ++ String Separator path).
  rewrite Split_app. cbn [Split app clean_elems fold_left].
  rewrite clean_step_skip by reflexivity. reflexivity.
Qed.

Lemma IsAbs_app_left (a b : string) : a <> "" -> IsAbs (a ++ b) = IsAbs a.
Proof.
  intros Hn. destruct (IsAbs a) eqn:Ha.
  - apply IsAbs_app, Ha.
  - apply IsAbs_app_rel; assumption.
Qed.

(** Joined to a root that is not empty, the rooted text of a stack of real
    elements and its relative text give the same path. *)
Lemma Join_render (base : string) (N : list string) :
  base <> "" -> Forall real N -> Forall elem N ->
  Join [base; render true N] = Join [base; render false N].
Proof.
  intros Hb HR HE. rewrite !Join2 by exact Hb.
  rewrite !Clean_elements, !(IsAbs_app_left base _ Hb), !Split_app, !clean_elems_app.
  f_equal. rewrite Split_render_rooted by exact HE.
  cbn [clean_elems fold_left]. rewrite clean_step_skip by reflexivity.
  destruct N as [|x N'] eqn:EN.
  - reflexivity.
  - rewrite <- EN in *. assert (Hn : N <> []) by (rewrite EN; discriminate).
    destruct (Split_render_rel N Hn HE) as [_ Sp]. rewrite Sp.
    destruct (rev N) as [|e es] eqn:E; [|reflexivity].
    apply (f_equal (@List.length string)) in E.
    rewrite length_rev, EN in E. discriminate.
Qed.

(** The first test of [Get] on the rooted and on the relative text. *)
Lemma Contains_render (N : list string) :
  Contains (render false N) ".." = false ->
  Contains (render true N) ".." = false.
Proof.
  destruct N as [|x N']; [reflexivity|].
  intros H. unfold render in *. cbv iota in H.
  change ("/" ++ GoStrings.Join (rev (x :: N')) "/")
    with (String Separator (GoStrings.Join (rev (x :: N')) "/")).
  rewrite Contains_String, H. reflexivity.
Qed.

(** A leading separator changes neither the first test nor the joined
    path of a request that passes the test. *)
Lemma rooted_request (base path : string) :
  base <> "" ->
  Contains (Clean path) ".." = false ->
  Contains (Clean (String Separator path)) ".." = false
  /\ Join [base; Clean (String Separator path)] = Join [base; Clean path].
Proof.
  intros Hb Hc. rewrite Clean_rooted.
  destruct (IsAbs path) eqn:Ha.
  - rewrite (Clean_elements path), Ha in *. split; [exact Hc|reflexivity].
  - pose proof (stack_without_dotdot path Ha Hc) as Hn.
    rewrite (rooted_as_relative _ _ Hn).
    rewrite (Clean_elements path), Ha in *.
    set (N := clean_elems false [] (Split path Separator)) in *.
    assert (HE : Forall elem N)
      by (apply clean_elems_Forall; [apply Split_all_elem|constructor]).
    assert (HR : Forall real N).
    { unfold N. rewrite <- (rooted_as_relative _ _ Hn).
      apply clean_elems_rooted_real. constructor. }
    split; [apply Contains_render, Hc | apply Join_render; assumption].
Qed.

End CleanAgain.

(* ================================================================= *)
(** ** Properties of the local storage *)

Module StorageProperties.
Import GoStrings Os Filepath Storage Elements Checks Spec Calls Examples.
Import StringFacts CleanFacts ResolveFacts StorageFacts GetFacts Containment RunFacts.
Import CleanAgain.
Local Open Scope string_scope.

(** X1.  [Get] never leaves a file open and never calls [os.Stat]; [Exists]
    never opens a file.  The calls of [Get] on the file system are none,
    or one failed [os.Open] of the joined path (and [Get] returns an error
    and no data), or open, read and close of the joined path, the close
    also when the read failed; the calls of [Exists] are none, or one
    [os.Stat] of the joined path.  Before them only [os.Getwd] is
    called. *)
Theorem file_call_discipline (s : LocalStorage) (path : string) (w : World) :
  (exists pre,
      no_file_call pre
      /\ (snd (LocalStorage_Get s path w) = pre
          \/ (snd (LocalStorage_Get s path w)
              = (pre ++ [Sys_open (fullPath_of s path)])%list
              /\ exists err, fst (LocalStorage_Get s path w) = ([], Some err))
          \/ snd (LocalStorage_Get s path w)
             = (pre ++ [Sys_open (fullPath_of s path);
                        Sys_read (fullPath_of s path);
                        Sys_close (fullPath_of s path)])%list))
  /\ (exists pre,
         no_file_call pre
         /\ (snd (LocalStorage_Exists s path w) = pre
             \/ snd (LocalStorage_Exists s path w)
                = (pre ++ [Sys_stat (fullPath_of s path)])%list)).
Proof.
  destruct (validated_cases s path w) as [V|V].
  - rewrite (Get_validated_run s path w V), (Exists_validated_run s path w V).
    cbn [fst snd]. rewrite !app_assoc.
    split; eexists; (split; [apply Abs_pair_trace|]).
    + destruct (files w (fullPath_of s path)) as [e|e|partial e|content];
        cbn [file_calls fetched].
      * right. left. split; [reflexivity|].
        destruct (IsNotExist _); eexists; reflexivity.
      * right. left. split; [reflexivity|].
        destruct (IsNotExist _); eexists; reflexivity.
      * right. right. reflexivity.
      * right. right. reflexivity.
    + right. reflexivity.
  - destruct (Get_rejected s path w V) as (e & _ & _ & T).
    destruct (Exists_rejected s path w V) as [_ T'].
    split; [exists (snd (LocalStorage_Get s path w))
           | exists (snd (LocalStorage_Exists s path w))];
      (split; [assumption|]); left; reflexivity.
Qed.

(** X2.  With a root that is not empty, every call of [Get] and of [Exists] on
    a file (open, read, close, stat) is on the joined path, and that path
    lies within the canonical root by path segments. *)
Theorem file_calls_within_root (s : LocalStorage) (path : string) (w : World)
  (e : Event) (name : string) :
  basePath s <> "" ->
  resolvable w (basePath s) ->
  In e (snd (LocalStorage_Get s path w)) \/ In e (snd (LocalStorage_Exists s path w)) ->
  file_of e = Some name ->
  name = fullPath_of s path
  /\ within (abs_of (wd_of w) (basePath s)) (abs_of (wd_of w) name) = true.
Proof.
  intros Hne Hres Hin Hf.
  destruct (file_events s path w e name Hin Hf) as [N V].
  split; [exact N|]. subst name. apply validated_within; assumption.
Qed.

Lemma file_calls_within_root_witness :
  resolvable container "./assets"
  /\ In (Sys_open "assets/sub/dir/file.bin")
        (snd (LocalStorage_Get (NewLocalStorage "./assets") "sub/dir/file.bin"
                container))
  /\ "assets/sub/dir/file.bin"
     = fullPath_of (NewLocalStorage "./assets") "sub/dir/file.bin"
  /\ within "/app/assets" "/app/assets/sub/dir/file.bin" = true.
Proof.
  assert (R : resolvable container "./assets")
    by (right; exists "/app"; split; reflexivity).
  assert (O : In (Sys_open "assets/sub/dir/file.bin")
                (snd (LocalStorage_Get (NewLocalStorage "./assets")
                        "sub/dir/file.bin" container)))
    by (vm_compute; auto).
  split; [exact R|]. split; [exact O|].
  apply (file_calls_within_root (NewLocalStorage "./assets") "sub/dir/file.bin"
           container (Sys_open "assets/sub/dir/file.bin")
           "assets/sub/dir/file.bin");
    [discriminate | exact R | left; exact O | reflexivity].
Defined.

(** X3.  What [Get] can read, [Exists] reports: when [Get] returns data without
    error, [Exists] is true; when [Exists] is false, [Get] returns an error
    and no data. *)
Theorem Get_success_implies_Exists (s : LocalStorage) (path : string) (w : World) :
  (forall data, fst (LocalStorage_Get s path w) = (data, None) ->
                fst (LocalStorage_Exists s path w) = true)
  /\ (fst (LocalStorage_Exists s path w) = false ->
      exists err, fst (LocalStorage_Get s path w) = ([], Some err)).
Proof.
  destruct (validated_cases s path w) as [V|V].
  - rewrite (Get_validated_run s path w V), (Exists_validated_run s path w V).
    cbn [fst]. destruct (files w (fullPath_of s path)) as [e|e|partial e|content];
      cbn [fetched]; (split; [intros data H | intros H]);
      try reflexivity; try discriminate.
    + destruct (IsNotExist _); discriminate.
    + destruct (IsNotExist _); eexists; reflexivity.
  - destruct (Get_rejected s path w V) as (e & G & _ & _).
    destruct (Exists_rejected s path w V) as [E _].
    rewrite G, E. split; [discriminate|]. intros _. eexists. reflexivity.
Qed.

Lemma Get_success_implies_Exists_witness :
  fst (LocalStorage_Exists (NewLocalStorage "./assets") "sub/dir/file.bin" container)
  = true
  /\ exists err,
       fst (LocalStorage_Get (NewLocalStorage "./assets") "missing.png" container)
       = ([], Some err).
Proof.
  split.
  - apply (proj1 (Get_success_implies_Exists (NewLocalStorage "./assets")
                    "sub/dir/file.bin" container) (bytes "B")).
    reflexivity.
  - apply (proj2 (Get_success_implies_Exists (NewLocalStorage "./assets")
                    "missing.png" container)).
    reflexivity.
Defined.

(** Under an absolute root the joined path is absolute. *)
Lemma fullPath_abs (s : LocalStorage) (path : string) :
  IsAbs (basePath s) = true -> IsAbs (fullPath_of s path) = true.
Proof.
  intros H. unfold fullPath_of.
  rewrite Join2 by (apply IsAbs_not_empty, H).
  rewrite (Clean_join_rooted _ _ H). apply IsAbs_render_rooted.
Qed.

(** X4.  With an absolute root, [Get] and [Exists] never ask for the working
    directory, and their result and calls are the same from every working
    directory, also when [os.Getwd] fails. *)
Theorem absolute_root_ignores_cwd (s : LocalStorage) (path : string) (w : World)
  (dir : string + Errno) :
  IsAbs (basePath s) = true ->
  LocalStorage_Get s path (with_cwd w dir) = LocalStorage_Get s path w
  /\ LocalStorage_Exists s path (with_cwd w dir) = LocalStorage_Exists s path w
  /\ ~ In Sys_getwd (snd (LocalStorage_Get s path w))
  /\ ~ In Sys_getwd (snd (LocalStorage_Exists s path w)).
Proof.
  intros H. pose proof (fullPath_abs s path H) as F. unfold fullPath_of in F.
  unfold LocalStorage_Get, LocalStorage_Exists.
  destruct (Contains (Clean path) "..").
  { repeat split; intros []. }
  unfold bind. rewrite !Abs_run, H. cbv beta iota. rewrite !Abs_run, F.
  cbv beta iota.
  destruct (negb (HasPrefix _ _)).
  { repeat split; intros []. }
  unfold Open, ReadAll, Close, Stat, bind, emit, ask, ret.
  cbn [files with_cwd].
  destruct (files w (Join [basePath s; Clean path])) as [e|e|partial e|content] eqn:E;
    cbn [fst snd name app]; rewrite ?E;
    try (destruct (IsNotExist (PathError "open" (Join [basePath s; Clean path]) e)));
    cbn [fst snd app In];
    repeat split; try reflexivity;
    try (cbn [files with_cwd]; rewrite E; reflexivity);
    intros G; repeat (destruct G as [G|G]; [discriminate|]); exact G.
Qed.

Lemma absolute_root_ignores_cwd_witness :
  IsAbs "/data/assets" = true
  /\ LocalStorage_Get (NewLocalStorage "/data/assets") "logo.png"
       (with_cwd container (inr ENOENT))
     = LocalStorage_Get (NewLocalStorage "/data/assets") "logo.png" container.
Proof.
  split; [reflexivity|].
  apply (absolute_root_ignores_cwd (NewLocalStorage "/data/assets") "logo.png"
           container (inr ENOENT)).
  reflexivity.
Defined.

(** X5.  With a relative root (the empty one included), when [os.Getwd] fails
    every request that passes the first test fails in [Get] with the error
    of [os.Getwd] wrapped as "failed to resolve base path: getwd: ...",
    [Exists] is false, and no file is touched. *)
Theorem relative_root_needs_cwd (s : LocalStorage) (path : string) (w : World)
  (e : Errno) :
  IsAbs (basePath s) = false ->
  cwd w = inr e ->
  Contains (Clean path) ".." = false ->
  LocalStorage_Get s path w
  = (([], Some (Errorf_w "failed to resolve base path: " (SyscallError "getwd" e))),
     [Sys_getwd])
  /\ Error (Errorf_w "failed to resolve base path: " (SyscallError "getwd" e))
     = "failed to resolve base path: getwd: " ++ Errno_Error e
  /\ kind_of (Errorf_w "failed to resolve base path: " (SyscallError "getwd" e))
     = IOError
  /\ LocalStorage_Exists s path w = (false, [Sys_getwd]).
Proof.
  intros H C Hc. unfold LocalStorage_Get, LocalStorage_Exists.
  rewrite Hc. unfold bind. rewrite !Abs_run, H, C.
  repeat split; reflexivity.
Qed.

Lemma relative_root_needs_cwd_witness :
  IsAbs "./assets" = false
  /\ cwd (with_cwd container (inr ENOENT)) = inr ENOENT
  /\ Contains (Clean "sub/dir/file.bin") ".." = false
  /\ fst (LocalStorage_Get (NewLocalStorage "./assets") "sub/dir/file.bin"
            (with_cwd container (inr ENOENT)))
     = ([], Some (Errorf_w "failed to resolve base path: "
                    (SyscallError "getwd" ENOENT))).
Proof.
  split; [reflexivity|]. split; [reflexivity|]. split; [reflexivity|].
  rewrite (proj1 (relative_root_needs_cwd (NewLocalStorage "./assets")
                    "sub/dir/file.bin" (with_cwd container (inr ENOENT)) ENOENT
                    eq_refl eq_refl eq_refl)).
  reflexivity.
Defined.

Lemma fetched_not_outside (fullPath : string) (entry : Entry) :
  snd (fetched fullPath entry) <> Some ErrOutside.
Proof.
  destruct entry as [e|e|partial e|content]; cbn [fetched];
    try (destruct (IsNotExist _)); cbn [snd]; discriminate.
Qed.

(** X22.  Under a root that is not empty the prefix test of [Get] and [Exists]
    never refuses a request: [Get] returns the traversal error exactly when
    the cleaned request contains [..], and otherwise what reading the
    joined path gives; it never returns "invalid path: outside base
    directory"; [Exists] is true exactly when the cleaned request has no
    [..] inside and [os.Stat] of the joined path succeeds. *)
Theorem prefix_test_never_refuses (s : LocalStorage) (path : string) (w : World) :
  basePath s <> "" ->
  resolvable w (basePath s) ->
  fst (LocalStorage_Get s path w)
  = (if Contains (Clean path) ".." then ([], Some ErrTraversal)
     else fetched (fullPath_of s path) (files w (fullPath_of s path)))
  /\ snd (fst (LocalStorage_Get s path w)) <> Some ErrOutside
  /\ fst (LocalStorage_Exists s path w)
     = negb (Contains (Clean path) "..")
       && match files w (fullPath_of s path) with
          | StatFails _ => false
          | _ => true
          end.
Proof.
  intros Hne Hres. pose proof (validated_iff s path w Hne Hres) as V.
  destruct (Contains (Clean path) "..") eqn:Hc; cbn [negb andb] in *.
  - rewrite (Get_traversal s path w Hc), (Exists_traversal s path w Hc).
    repeat split. discriminate.
  - rewrite (Get_validated s path w V), (Exists_validated s path w V).
    repeat split. apply fetched_not_outside.
Qed.

Lemma prefix_test_never_refuses_witness :
  resolvable container "./assets"
  /\ fst (LocalStorage_Get (NewLocalStorage "./assets") "sub/dir/file.bin" container)
     = (bytes "B", None)
  /\ fst (LocalStorage_Exists (NewLocalStorage "./assets") "../assets-evil/file"
            container) = false.
Proof.
  assert (R : resolvable container "./assets")
    by (right; exists "/app"; split; reflexivity).
  split; [exact R|]. split.
  - rewrite (proj1 (prefix_test_never_refuses (NewLocalStorage "./assets")
                      "sub/dir/file.bin" container ltac:(discriminate) R)).
    reflexivity.
  - rewrite (proj2 (proj2 (prefix_test_never_refuses (NewLocalStorage "./assets")
                             "../assets-evil/file" container ltac:(discriminate) R))).
    reflexivity.
Defined.

(** X6.  A request and its cleaned form get the same answer from [Get] and
    from [Exists], with the same calls: cleaning a request before passing
    it on changes nothing. *)
Theorem cleaned_request_same_answer (s : LocalStorage) (path : string) (w : World) :
  LocalStorage_Get s (Clean path) w = LocalStorage_Get s path w
  /\ LocalStorage_Exists s (Clean path) w = LocalStorage_Exists s path w.
Proof.
  unfold LocalStorage_Get, LocalStorage_Exists. rewrite Clean_Clean.
  split; reflexivity.
Qed.

(** X7.  Under a root that is not empty, a leading separator of a request that
    passes the first test is ignored: [/p] is answered as [p] is, by [Get]
    and by [Exists], so a rooted request names a file under the root and
    not a file of the host. *)
Theorem leading_slash_ignored (s : LocalStorage) (path : string) (w : World) :
  basePath s <> "" ->
  Contains (Clean path) ".." = false ->
  LocalStorage_Get s (String Separator path) w = LocalStorage_Get s path w
  /\ LocalStorage_Exists s (String Separator path) w = LocalStorage_Exists s path w.
Proof.
  intros Hb Hc. destruct (rooted_request (basePath s) path Hb Hc) as [C J].
  unfold LocalStorage_Get, LocalStorage_Exists.
  rewrite C, Hc, J. split; reflexivity.
Qed.

Lemma leading_slash_ignored_witness :
  Contains (Clean "sub/dir/file.bin") ".." = false
  /\ fst (LocalStorage_Get (NewLocalStorage "./assets") "/sub/dir/file.bin" container)
     = (bytes "B", None).
Proof.
  split; [reflexivity|].
  change "/sub/dir/file.bin" with (String Separator "sub/dir/file.bin").
  rewrite (proj1 (leading_slash_ignored (NewLocalStorage "./assets")
                    "sub/dir/file.bin" container ltac:(discriminate) eq_refl)).
  reflexivity.
Defined.

(** The second hypothesis cannot be dropped: [../x] is refused, and [/../x]
    is answered as [x]. *)
Example rooted_dotdot :
  fst (LocalStorage_Get (NewLocalStorage "./assets") "../sub/dir/file.bin" container)
  = ([], Some ErrTraversal)
  /\ fst (LocalStorage_Get (NewLocalStorage "./assets") "/../sub/dir/file.bin" container)
     = (bytes "B", None).
Proof. split; reflexivity. Qed.

End StorageProperties.

(* ================================================================= *)
(** ** Properties of the asset handler *)

Module HandlerProperties.
Import GoStrings Os Filepath Storage Main Elements Checks Spec Calls Examples.
Import MoreExamples.
Import StorageFacts GetFacts Containment RunFacts HandlerClaims.
Local Open Scope string_scope.

Lemma base_of_not_empty (w : World) : base_of w <> "".
Proof.
  unfold base_of. destruct (String.eqb_spec (ASSETS_BASE_PATH w) "");
    [discriminate|assumption].
Qed.

(** The calls of the handler: the warning of the choice of the store, the
    calls of [Get], the debug line of a failed [Get]. *)
Lemma selectStore_trace (base loc : string) (w : World) :
  snd (selectStore base loc w)
  = if (loc =? "bucket") && (Level_rank (logLevel w) <=? Level_rank Warn)%nat
    then [Log_print "[WARN ] bucket storage not yet implemented, falling back to local"]
    else [].
Proof.
  unfold selectStore. destruct (loc =? "bucket"); cbn [andb].
  - unfold Logger.Warnf, bind, ask, emit, ret.
    destruct (Level_rank (logLevel w) <=? Level_rank Warn)%nat; reflexivity.
  - destruct (loc =? "local"); reflexivity.
Qed.

Lemma reply_trace (rw : Http.ResponseWriter) (assetPath : string)
  (got : list byte * option error) (w : World) :
  snd (reply rw assetPath got w)
  = match snd got with
    | Some err =>
        if (Level_rank (logLevel w) <=? Level_rank Debug)%nat
        then [Log_print ("[DEBUG] asset not found: " ++ assetPath
                         ++ " (" ++ Error err ++ ")")]
        else []
    | None => []
    end.
Proof.
  destruct got as [data [err|]]; unfold reply; cbn [snd].
  - unfold Logger.Debugf, bind, ask, emit, ret.
    destruct (Level_rank (logLevel w) <=? Level_rank Debug)%nat; reflexivity.
  - unfold Mime.TypeByExtension, bind, ask, ret.
    destruct (detectContentType (mimeTypes w (Ext assetPath)) data); reflexivity.
Qed.

Lemma serveAsset_trace (urlPath : string) (w : World) :
  snd (serveAsset urlPath w)
  = (snd (selectStore (base_of w) (ImageStorageLocation w) w)
     ++ snd (LocalStorage_Get (NewLocalStorage (base_of w))
               (TrimPrefix urlPath "/assets/") w)
     ++ snd (reply Http.NewRecorder (TrimPrefix urlPath "/assets/")
               (fst (LocalStorage_Get (NewLocalStorage (base_of w))
                       (TrimPrefix urlPath "/assets/") w)) w))%list.
Proof.
  unfold serveAsset, assetHandler. rewrite !bind_run. cbn [fst snd app].
  rewrite selectStore_local. reflexivity.
Qed.

Lemma log_not_file (t : list Event) (e : Event) (name : string) :
  In e t -> file_of e = Some name ->
  (forall x, In x t -> exists line, x = Log_print line) -> False.
Proof.
  intros Hin Hf H. destruct (H e Hin) as [line ->]. discriminate.
Qed.

Lemma selectStore_logs (base loc : string) (w : World) (x : Event) :
  In x (snd (selectStore base loc w)) -> exists line, x = Log_print line.
Proof.
  rewrite selectStore_trace. destruct (_ && _); [|intros []].
  intros [<-|[]]. eexists. reflexivity.
Qed.

Lemma reply_logs (rw : Http.ResponseWriter) (assetPath : string)
  (got : list byte * option error) (w : World) (x : Event) :
  In x (snd (reply rw assetPath got w)) -> exists line, x = Log_print line.
Proof.
  rewrite reply_trace. destruct (snd got); [|intros []].
  destruct (_ <=? _)%nat; [|intros []].
  intros [<-|[]]. eexists. reflexivity.
Qed.

(** X8.  The handler never serves from the empty root: the base path of [main]
    is never empty.  So every call of the handler on a file (open, read,
    close) is on the path joined from the base path and the cleaned
    request, and that path lies within the canonical base path by path
    segments, whatever the URL is. *)
Theorem handler_reads_within_root (urlPath : string) (w : World) (e : Event)
  (name : string) :
  resolvable w (base_of w) ->
  In e (snd (serveAsset urlPath w)) ->
  file_of e = Some name ->
  name = Join [base_of w; Clean (TrimPrefix urlPath "/assets/")]
  /\ within (abs_of (wd_of w) (base_of w)) (abs_of (wd_of w) name) = true.
Proof.
  intros Hres Hin Hf. rewrite serveAsset_trace in Hin.
  apply in_app_or in Hin. destruct Hin as [Hin|Hin].
  { exfalso. apply (log_not_file _ e name Hin Hf). apply selectStore_logs. }
  apply in_app_or in Hin. destruct Hin as [Hin|Hin].
  2:{ exfalso. apply (log_not_file _ e name Hin Hf). apply reply_logs. }
  destruct (file_events _ _ w e name (or_introl Hin) Hf) as [N V].
  split; [exact N|]. subst name.
  apply (validated_within (NewLocalStorage (base_of w))); [|exact Hres|exact V].
  apply base_of_not_empty.
Qed.

Lemma handler_reads_within_root_witness :
  resolvable container (base_of container)
  /\ In (Sys_read "assets/sub/dir/file.bin")
        (snd (serveAsset "/assets/sub/dir/file.bin" container))
  /\ within "/app/assets" "/app/assets/sub/dir/file.bin" = true.
Proof.
  assert (R : resolvable container (base_of container))
    by (right; exists "/app"; split; reflexivity).
  assert (O : In (Sys_read "assets/sub/dir/file.bin")
                (snd (serveAsset "/assets/sub/dir/file.bin" container)))
    by (vm_compute; auto).
  split; [exact R|]. split; [exact O|].
  apply (handler_reads_within_root "/assets/sub/dir/file.bin" container
           (Sys_read "assets/sub/dir/file.bin") "assets/sub/dir/file.bin" R O).
  reflexivity.
Defined.

(** X9.  The reply to a request whose file [Get] has read: the status 200, the
    bytes read as the body, and two headers, a content type that is never
    empty and a cache lifetime of one year.  A reply with that cache header
    is always the reply to a successful [Get]: errors are not cacheable. *)
Theorem asset_reply_shape (urlPath : string) (w : World) :
  (forall data,
      fst (LocalStorage_Get (NewLocalStorage (base_of w))
             (TrimPrefix urlPath "/assets/") w) = (data, None) ->
      fst (serveAsset urlPath w)
      = Returned
          {| Http.Header :=
               [("Content-Type",
                 guarded_content_type (mimeTypes w)
                   (TrimPrefix urlPath "/assets/") data);
                ("Cache-Control", "public, max-age=31536000")];
             Http.Status := Some 200;
             Http.Body := data |}
      /\ guarded_content_type (mimeTypes w) (TrimPrefix urlPath "/assets/") data
         <> "")
  /\ (forall rw value,
         fst (serveAsset urlPath w) = Returned rw ->
         In ("Cache-Control", value) (Http.Header rw) ->
         snd (fst (LocalStorage_Get (NewLocalStorage (base_of w))
                     (TrimPrefix urlPath "/assets/") w)) = None).
Proof.
  split.
  - intros data G. split.
    + rewrite serveAsset_run, G, reply_ok, detectContentType_run.
      unfold guarded_content_type. reflexivity.
    + unfold guarded_content_type. destruct (_ && _); [discriminate|].
      destruct (String.eqb_spec (mimeTypes w (Ext (TrimPrefix urlPath "/assets/"))) "");
        [discriminate|assumption].
  - intros rw value R Hin. rewrite serveAsset_run in R.
    destruct (fst (LocalStorage_Get _ _ w)) as [data [err|]]; [|reflexivity].
    exfalso. rewrite reply_error in R. injection R as <-.
    cbn in Hin. intuition discriminate.
Qed.

Lemma asset_reply_shape_witness :
  fst (LocalStorage_Get (NewLocalStorage (base_of container))
         (TrimPrefix "/assets/sub/dir/file.bin" "/assets/") container)
  = (bytes "B", None)
  /\ fst (serveAsset "/assets/sub/dir/file.bin" container)
     = Returned
         {| Http.Header := [("Content-Type", "application/octet-stream");
                            ("Cache-Control", "public, max-age=31536000")];
            Http.Status := Some 200;
            Http.Body := bytes "B" |}.
Proof.
  split; [reflexivity|].
  rewrite (proj1 (proj1 (asset_reply_shape "/assets/sub/dir/file.bin" container)
                    (bytes "B") eq_refl)).
  reflexivity.
Defined.

(** X10.  What the handler writes to the log: the warning of the flag value
    [bucket], when the level lets warnings through; and, after a failed
    [Get], one line with the request and the text of the error, at the
    level debug only.  Nothing else is ever logged, and nothing at all for
    a request that is served under a flag other than [bucket]. *)
Theorem handler_log_lines (urlPath : string) (w : World) (line : string) :
  In (Log_print line) (snd (serveAsset urlPath w)) ->
  (line = "[WARN ] bucket storage not yet implemented, falling back to local"
   /\ ImageStorageLocation w = "bucket"
   /\ logLevel w <> Error_)
  \/ (exists data err,
         fst (LocalStorage_Get (NewLocalStorage (base_of w))
                (TrimPrefix urlPath "/assets/") w) = (data, Some err)
         /\ line = "[DEBUG] asset not found: " ++ TrimPrefix urlPath "/assets/"
                   ++ " (" ++ Error err ++ ")"
         /\ logLevel w = Debug).
Proof.
  rewrite serveAsset_trace. intros Hin.
  apply in_app_or in Hin. destruct Hin as [Hin|Hin].
  { left. rewrite selectStore_trace in Hin.
    destruct (String.eqb_spec (ImageStorageLocation w) "bucket") as [B|B];
      [|destruct Hin].
    destruct (logLevel w); cbn in Hin; try (destruct Hin; fail);
      destruct Hin as [Hin|Hin]; try (destruct Hin; fail);
      injection Hin as <-; repeat split; try assumption; discriminate. }
  apply in_app_or in Hin. destruct Hin as [Hin|Hin].
  - exfalso. apply Get_events in Hin.
    destruct Hin as [Hin|[name Hin]]; discriminate.
  - right. rewrite reply_trace in Hin.
    destruct (fst (LocalStorage_Get _ _ w)) as [data [err|]]; cbn [snd] in Hin;
      [|destruct Hin].
    exists data, err. split; [reflexivity|].
    destruct (logLevel w); cbn in Hin; try (destruct Hin; fail).
    destruct Hin as [Hin|Hin]; [|destruct Hin].
    injection Hin as <-. split; reflexivity.
Qed.

Lemma handler_log_lines_witness :
  In (Log_print "[DEBUG] asset not found: missing.png (file not found)")
     (snd (serveAsset "/assets/missing.png" debugging))
  /\ logLevel debugging = Debug.
Proof.
  assert (L : In (Log_print "[DEBUG] asset not found: missing.png (file not found)")
                (snd (serveAsset "/assets/missing.png" debugging)))
    by (vm_compute; auto).
  split; [exact L|].
  destruct (handler_log_lines "/assets/missing.png" debugging _ L)
    as [(E & _ & _)|(data & err & _ & _ & D)]; [discriminate E|exact D].
Defined.

End HandlerProperties.

(* ================================================================= *)
(** ** Properties of the logger *)

Module LoggerProperties.
Import Os Logger Logging.
Local Open Scope string_scope.

Lemma SetLevel_level (level : string) (w : World) :
  logLevel (SetLevel level w)
  = if level =? "debug" then Debug
    else if level =? "warn" then Warn
    else if level =? "error" then Error_
    else Info.
Proof.
  unfold SetLevel. destruct (level =? "debug"); [reflexivity|].
  destruct (level =? "warn"); [reflexivity|].
  destruct (level =? "error"); reflexivity.
Qed.

(** X11.  [GetLevel] after [SetLevel]: a level set by one of its four names is
    read back under that name; every other string, the empty one and a
    name in capitals included, sets the level [info].  Setting the level
    that [GetLevel] reports changes nothing. *)
Theorem level_round_trip (level : string) (w : World) :
  (In level ["debug"; "info"; "warn"; "error"] ->
   fst (GetLevel (SetLevel level w)) = level)
  /\ (~ In level ["debug"; "info"; "warn"; "error"] ->
      fst (GetLevel (SetLevel level w)) = "info")
  /\ SetLevel (fst (GetLevel w)) w = w.
Proof.
  unfold GetLevel, bind, ask, ret. cbn [fst]. rewrite SetLevel_level.
  repeat split.
  - intros [<-|[<-|[<-|[<-|[]]]]]; reflexivity.
  - intros H.
    destruct (String.eqb_spec level "debug") as [->|_];
      [exfalso; apply H; cbn; auto|].
    destruct (String.eqb_spec level "warn") as [->|_];
      [exfalso; apply H; cbn; auto|].
    destruct (String.eqb_spec level "error") as [->|_];
      [exfalso; apply H; cbn; auto|].
    reflexivity.
  - destruct w as [c f a m i []]; reflexivity.
Qed.

Lemma level_round_trip_witness :
  In "warn" ["debug"; "info"; "warn"; "error"]
  /\ fst (GetLevel (SetLevel "warn" Examples.container)) = "warn"
  /\ ~ In "WARN" ["debug"; "info"; "warn"; "error"]
  /\ fst (GetLevel (SetLevel "WARN" Examples.container)) = "info".
Proof.
  assert (I : In "warn" ["debug"; "info"; "warn"; "error"]) by (cbn; auto).
  assert (N : ~ In "WARN" ["debug"; "info"; "warn"; "error"])
    by (cbn; intuition discriminate).
  split; [exact I|].
  split; [exact (proj1 (level_round_trip "warn" Examples.container) I)|].
  split; [exact N|].
  exact (proj1 (proj2 (level_round_trip "WARN" Examples.container)) N).
Defined.

(** X12.  Which printer prints after [SetLevel(level)]: [Errorf] always; [Warnf]
    unless the level is [error]; [Infof] unless it is [warn] or [error];
    [Debugf] only when it is [debug].  So a message that a printer lets
    through is let through by every printer of higher severity, and an
    unknown level name behaves as [info]. *)
Theorem printers_by_level (level msg : string) (w : World) :
  snd (Errorf msg (SetLevel level w)) = [Log_print ("[ERROR] " ++ msg)]
  /\ snd (Warnf msg (SetLevel level w))
     = (if level =? "error" then [] else [Log_print ("[WARN ] " ++ msg)])
  /\ snd (Infof msg (SetLevel level w))
     = (if (level =? "error") || (level =? "warn") then []
        else [Log_print ("[INFO ] " ++ msg)])
  /\ snd (Debugf msg (SetLevel level w))
     = (if level =? "debug" then [Log_print ("[DEBUG] " ++ msg)] else []).
Proof.
  unfold Errorf, Warnf, Infof, Debugf, bind, ask, emit, ret.
  rewrite SetLevel_level.
  destruct (String.eqb_spec level "debug") as [->|_]; [repeat split|].
  destruct (String.eqb_spec level "warn") as [->|_]; [repeat split|].
  destruct (String.eqb_spec level "error") as [->|_]; repeat split.
Qed.

End LoggerProperties.

(* ================================================================= *)
(** ** Properties of the request logger and of the offline gate *)

Module MiddlewareProperties.
Import GoStrings Os Filepath Storage Main Checks Calls Handlers Middleware Server Scripts.
Import StringFacts StorageFacts RunFacts HandlerClaims HandlerProperties.
Local Open Scope string_scope.

(** *** The set of skipped paths *)

Lemma lookup_insert (o : opts) (p path : string) :
  lookup (insert o p) path = (path =? p) || lookup o path.
Proof.
  unfold insert. destruct (lookup o p) eqn:L; [|reflexivity].
  destruct (String.eqb_spec path p) as [->|_]; [|reflexivity].
  rewrite L. reflexivity.
Qed.

Lemma lookup_WithSkips (paths : list string) (path : string) :
  forall o, lookup (WithSkips paths o) path
            = existsb (String.eqb path) paths || lookup o path.
Proof.
  unfold WithSkips. induction paths as [|p paths IH]; intros o; [reflexivity|].
  cbn [fold_left existsb]. rewrite IH, lookup_insert.
  destruct (path =? p), (existsb (String.eqb path) paths); reflexivity.
Qed.

Lemma lookup_options (pss : list (list string)) (path : string) :
  forall o, lookup (fold_left (fun o fn => fn o) (map WithSkips pss) o) path
            = existsb (String.eqb path) (List.concat pss) || lookup o path.
Proof.
  induction pss as [|ps pss IH]; intros o; [reflexivity|].
  cbn [map fold_left List.concat]. rewrite IH, lookup_WithSkips, existsb_app.
  destruct (existsb (String.eqb path) ps), (existsb (String.eqb path) (List.concat pss));
    reflexivity.
Qed.

Lemma existsb_eqb_In (path : string) (l : list string) :
  existsb (String.eqb path) l = true <-> In path l.
Proof.
  rewrite existsb_exists. split.
  - intros (x & Hin & E). apply String.eqb_eq in E. subst x. exact Hin.
  - intros Hin. exists path. split; [exact Hin|apply String.eqb_refl].
Qed.

(** *** The writer [wrap] *)

Lemma play_wrap {W : Type} `{ResponseWriter W} (calls : list Call) :
  forall (w : W) (code : nat),
    play calls {| inner := w; status := code |}
    = {| inner := play calls w; status := last_code calls code |}.
Proof.
  unfold play, last_code. induction calls as [|c calls IH]; intros w code;
    [reflexivity|].
  cbn [fold_left]. destruct c; cbn [call]; apply IH.
Qed.

Section Logged.

Variable elapsed : World -> string.
Variable quote : string -> string.

(** The run of [LogRequests] around a handler that treats every writer
    alike. *)
Lemma LogRequests_run (options : list Option) (next : Handler)
  (script : Request -> IO (option (list Call)))
  (W : Type) (I : ResponseWriter W) (w : W) (r : Request) (world : World) :
  scripted next script ->
  LogRequests elapsed quote options next W I w r world
  = if lookup (fold_left (fun o fn => fn o) options {| skips := [] |}) (URL_Path r)
    then next W I w r world
    else match fst (script r world) with
         | None => (None, snd (script r world))
         | Some calls =>
             (Some (play calls w),
              (snd (script r world)
               ++ [Log_print (requestLine elapsed quote r (last_code calls 200)
                                world)])%list)
         end.
Proof.
  intros S. unfold LogRequests.
  destruct (lookup _ (URL_Path r)); [reflexivity|].
  unfold bind. rewrite (S (wrap W)).
  destruct (fst (script r world)) as [calls|]; cbn [option_map].
  - rewrite play_wrap. reflexivity.
  - cbn [ret]. rewrite app_nil_r. reflexivity.
Qed.

End Logged.

(** *** The handlers of [main] treat every writer alike *)

Lemma http_Error_play {W : Type} `{ResponseWriter W} (w : W) (error : string)
  (code : nat) :
  http_Error w error code = play (errorCalls error code) w.
Proof. reflexivity. Qed.

Lemma health_scripted : scripted healthHandler (fun _ => ret (Some healthCalls)).
Proof. intros W I w r world. reflexivity. Qed.

Lemma ready_scripted (Ping : IO (option error)) :
  scripted (readyHandler Ping)
    (fun _ => bind Ping (fun err => ret (Some (readyCalls err)))).
Proof.
  intros W I w r world. unfold readyHandler. rewrite !bind_run.
  destruct (fst (Ping world)); reflexivity.
Qed.





(** *** The request logger *)

(** X13.  The paths that [LogRequests] skips are exactly the paths given to
    [WithSkips], compared as whole strings, whatever their number and
    order; with the options of [main] they are [/health] and [/ready]. *)
Theorem skipped_paths (pss : list (list string)) (path : string) :
  (lookup (fold_left (fun o fn => fn o) (map WithSkips pss) {| skips := [] |}) path
   = true <-> In path (List.concat pss))
  /\ (lookup (fold_left (fun o fn => fn o) [WithSkips ["/health"; "/ready"]]
                {| skips := [] |}) path = true
      <-> path = "/health" \/ path = "/ready").
Proof.
  split.
  - rewrite lookup_options. cbn [lookup skips existsb]. rewrite orb_false_r.
    apply existsb_eqb_In.
  - rewrite (lookup_options [["/health"; "/ready"]] path).
    cbn [lookup skips existsb List.concat app]. rewrite !orb_false_r.
    rewrite orb_true_iff, !String.eqb_eq. reflexivity.
Qed.

(** X14.  [LogRequests] around a handler that treats every writer alike: on a
    skipped path it is the handler; on any other path the reply is the one
    of the handler, and one line is logged after the calls of the handler,
    with the code of the last [WriteHeader] of the handler as the status,
    200 when there was none; when the handler panics nothing is logged. *)
Theorem request_log (elapsed : World -> string) (quote : string -> string)
  (options : list Option) (next : Handler)
  (script : Request -> IO (option (list Call)))
  (W : Type) (I : ResponseWriter W) (w : W) (r : Request) (world : World) :
  scripted next script ->
  (lookup (fold_left (fun o fn => fn o) options {| skips := [] |}) (URL_Path r)
   = true ->
   LogRequests elapsed quote options next W I w r world = next W I w r world)
  /\ (lookup (fold_left (fun o fn => fn o) options {| skips := [] |}) (URL_Path r)
      = false ->
      fst (LogRequests elapsed quote options next W I w r world)
      = fst (next W I w r world)
      /\ snd (LogRequests elapsed quote options next W I w r world)
         = match fst (script r world) with
           | Some calls =>
               (snd (next W I w r world)
                ++ [Log_print (requestLine elapsed quote r (last_code calls 200)
                                 world)])%list
           | None => snd (next W I w r world)
           end).
Proof.
  intros S. rewrite (LogRequests_run elapsed quote options next script W I w r world S).
  split; intros L; rewrite L; [reflexivity|].
  rewrite (S W I w r world). cbn [fst snd].
  destruct (fst (script r world)); split; reflexivity.
Qed.

Lemma request_log_witness :
  snd (LogRequests (fun _ => "1ms") (fun ua => ua) [WithSkips ["/health"]]
         healthHandler Http.ResponseWriter Recorder Http.NewRecorder
         {| Method := "GET"; URL_Path := "/x"; URL_String := "/x?y=1";
            UserAgent := "curl" |} Examples.container)
  = [Log_print "GET /x?y=1 status=200 dur=1ms ua=curl"].
Proof.
  rewrite (proj2 (proj2 (request_log (fun _ => "1ms") (fun ua => ua)
                           [WithSkips ["/health"]] healthHandler
                           (fun _ => ret (Some healthCalls))
                           Http.ResponseWriter Recorder Http.NewRecorder
                           {| Method := "GET"; URL_Path := "/x";
                              URL_String := "/x?y=1"; UserAgent := "curl" |}
                           Examples.container health_scripted) eq_refl)).
  reflexivity.
Defined.








(** Otherwise the two can differ: a handler that writes and then calls
    [WriteHeader(500)] sends 200 and is logged with 500. *)
Example logged_status_may_differ :
  Http.Status (play [Call_Write (list_byte_of_string "x"); Call_WriteHeader 500]
                 Http.NewRecorder) = Some 200
  /\ last_code [Call_Write (list_byte_of_string "x"); Call_WriteHeader 500] 200 = 500.
Proof. split; reflexivity. Qed.

(** X16.  [hasPrefixIn] does not depend on the order in which the map is
    iterated: it is true exactly when some path of the set is a prefix of
    the path, so two enumerations of the same set give the same answer. *)
Theorem hasPrefixIn_any_order (path : string) (set1 set2 : list string) :
  (hasPrefixIn path set1 = true
   <-> exists p, In p set1 /\ HasPrefix path p = true)
  /\ ((forall p, In p set1 <-> In p set2) ->
      hasPrefixIn path set1 = hasPrefixIn path set2).
Proof.
  assert (C : forall set, hasPrefixIn path set = true
                          <-> exists p, In p set /\ HasPrefix path p = true).
  { induction set as [|p set IH]; cbn [hasPrefixIn].
    - split; [discriminate|]. intros (p & [] & _).
    - destruct (HasPrefix path p) eqn:E.
      + split; [|reflexivity]. intros _. exists p. split; [left; reflexivity|exact E].
      + rewrite IH. split.
        * intros (q & Hin & Hq). exists q. split; [right; exact Hin|exact Hq].
        * intros (q & [->|Hin] & Hq); [congruence|]. exists q. split; assumption. }
  split; [apply C|]. intros H.
  destruct (hasPrefixIn path set1) eqn:E1, (hasPrefixIn path set2) eqn:E2;
    try reflexivity.
  - apply C in E1. destruct E1 as (p & Hin & Hp).
    assert (X : hasPrefixIn path set2 = true)
      by (apply C; exists p; split; [apply H, Hin|exact Hp]).
    congruence.
  - apply C in E2. destruct E2 as (p & Hin & Hp).
    assert (X : hasPrefixIn path set1 = true)
      by (apply C; exists p; split; [apply H, Hin|exact Hp]).
    congruence.
Qed.

Lemma hasPrefixIn_any_order_witness :
  hasPrefixIn "/health/live" ["/ready"; "/health"]
  = hasPrefixIn "/health/live" ["/health"; "/ready"; "/health"].
Proof.
  apply (proj2 (hasPrefixIn_any_order "/health/live" ["/ready"; "/health"]
                  ["/health"; "/ready"; "/health"])).
  intros p. cbn [In]. tauto.
Defined.

End MiddlewareProperties.

(* ================================================================= *)
(** ** Properties of the middleware of [main] *)

Module ServerProperties.
Import GoStrings Os Filepath Storage Main Checks Calls Handlers Middleware Server Scripts.
Import StringFacts StorageFacts RunFacts HandlerClaims HandlerProperties.
Import MiddlewareProperties.
Local Open Scope string_scope.



Section Routed.

Variable Offline : World -> bool.
Variable elapsed : World -> string.
Variable quote : string -> string.


End Routed.








End ServerProperties.

(* ================================================================= *)
(** ** Properties of the feature-flag key file *)

Module FeatureflagsProperties.
Import GoStrings Os FeatureflagsKey.
Import StringFacts StorageFacts.
Local Open Scope string_scope.

Lemma ReadFile_run (path : string) (w : World) :
  ReadFile path w
  = match files w path with
    | StatFails e | OpenFails e =>
        (([], Some (PathError "open" path e)), [Sys_open path])
    | ReadFails partial e =>
        ((partial, Some (PathError "read" path e)),
         [Sys_open path; Sys_read path; Sys_close path])
    | Regular content =>
        ((content, None), [Sys_open path; Sys_read path; Sys_close path])
    end.
Proof.
  unfold ReadFile, Open, ReadAll, Close, bind, emit, ask, ret.
  destruct (files w path) eqn:F; cbn [fst snd name app]; rewrite ?F; reflexivity.
Qed.

Lemma Contains_wrapped (a sub b c : string) :
  Contains ((a ++ sub ++ b) ++ c) sub = true.
Proof. rewrite !append_assoc. apply Contains_infix. Qed.

(** X20.  Whatever the file holds and however it is trimmed and parsed, a key
    that [readEnvKey] returns without error is never empty; with an error
    the key is empty and the text of the error names the file. *)
Theorem readEnvKey_result (TrimSpace : string -> string)
  (Unmarshal : string -> (string * string) * option error)
  (path : string) (w : World) :
  (forall key, fst (readEnvKey TrimSpace Unmarshal path w) = (key, None) ->
               key <> "")
  /\ (forall key err,
         fst (readEnvKey TrimSpace Unmarshal path w) = (key, Some err) ->
         key = "" /\ Contains (Error err) path = true).
Proof.
  unfold readEnvKey. rewrite bind_run, ReadFile_run.
  destruct (files w path) as [e|e|partial e|content]; cbn [fst snd app ret].
  1-3: split; [discriminate|];
       intros key err E; injection E as <- <-; (split; [reflexivity|]);
       apply (Contains_wrapped "read " path ": ").
  destruct (String.eqb_spec (TrimSpace (string_of_list_byte content)) "") as [E0|N0].
  { split; [discriminate|].
    intros key err E; injection E as <- <-. split; [reflexivity|].
    apply (Contains_infix "file " path). }
  destruct (HasPrefix (TrimSpace (string_of_list_byte content)) "{").
  2:{ split; [|discriminate].
      intros key E. injection E as <-. exact N0. }
  destruct (Unmarshal (TrimSpace (string_of_list_byte content)))
    as [[EnvKey Key] [err|]].
  { split; [discriminate|].
    intros key err' E; injection E as <- <-. split; [reflexivity|].
    apply (Contains_wrapped "parse JSON in " path ": "). }
  destruct (String.eqb_spec EnvKey "") as [E1|N1]; cbn [negb].
  2:{ split; [|discriminate].
      intros key E. injection E as <-. exact N1. }
  destruct (String.eqb_spec Key "") as [E2|N2]; cbn [negb].
  2:{ split; [|discriminate].
      intros key E. injection E as <-. exact N2. }
  split; [discriminate|].
  intros key err E; injection E as <- <-. split; [reflexivity|].
  unfold Errorf. cbn [Error]. rewrite <- (append_nil_r path) at 1.
  apply (Contains_infix "no envKey in JSON " path "").
Qed.

Lemma readEnvKey_result_witness :
  fst (readEnvKey (fun s => s) (fun _ => (("", ""), None)) "assets/sub/dir/file.bin"
         Examples.container) = ("B", None)
  /\ "B" <> ""
  /\ (exists err,
         fst (readEnvKey (fun s => s) (fun _ => (("", ""), None)) "/app/config/fm.json"
                Examples.container) = ("", Some err)
         /\ Contains (Error err) "/app/config/fm.json" = true).
Proof.
  split; [reflexivity|]. split.
  - apply (proj1 (readEnvKey_result (fun s => s) (fun _ => (("", ""), None))
                    "assets/sub/dir/file.bin" Examples.container) "B").
    reflexivity.
  - eexists. split; [reflexivity|].
    apply (proj2 (readEnvKey_result (fun s => s) (fun _ => (("", ""), None))
                    "/app/config/fm.json" Examples.container) "").
    reflexivity.
Defined.

End FeatureflagsProperties.

(* ================================================================= *)
(** ** Properties of the loop that watches the log level *)

Module LevelWatchProperties.
Import Os Logger Logging LevelWatch.
Import LoggerProperties.
Local Open Scope string_scope.

Lemma SetLevel_twice (a b : string) (w : World) :
  SetLevel b (SetLevel a w) = SetLevel b w.
Proof.
  unfold SetLevel.
  destruct (b =? "debug"), (b =? "warn"), (b =? "error"),
    (a =? "debug"), (a =? "warn"), (a =? "error"); reflexivity.
Qed.

Lemma SetLevel_same (prev : string) (w : World) :
  logLevel w = logLevel (SetLevel prev w) -> SetLevel prev w = w.
Proof.
  rewrite SetLevel_level. unfold SetLevel. destruct w as [c f a m i l]. cbn.
  intros ->. destruct (prev =? "debug"), (prev =? "warn"), (prev =? "error");
    reflexivity.
Qed.

Lemma last_cons (l : list string) :
  forall a d, last (a :: l) d = last l a.
Proof.
  induction l as [|b l IH]; intros a d; [reflexivity|].
  change (last (a :: b :: l) d) with (last (b :: l) d).
  rewrite !IH. reflexivity.
Qed.

Lemma watch_state (curs : list string) :
  forall prev w,
    fst (watch curs (prev, SetLevel prev w))
    = (last curs prev, SetLevel (last curs prev) w).
Proof.
  induction curs as [|cur rest IH]; intros prev w; [reflexivity|].
  cbn [watch]. unfold watchRound.
  destruct (String.eqb_spec cur prev) as [->|N]; cbn [negb].
  - specialize (IH prev w). destruct (watch rest (prev, SetLevel prev w)) as [st t].
    cbn [fst] in *. rewrite IH, last_cons. reflexivity.
  - rewrite SetLevel_twice. specialize (IH cur w).
    destruct (watch rest (cur, SetLevel cur w)) as [st t].
    cbn [fst] in *. rewrite IH, last_cons. reflexivity.
Qed.

(** X21.  The level follows the flag: when the level in force is the one the
    remembered value names, then after any number of rounds, whatever
    values the flag took, the level in force is the one the last value
    names and the loop remembers that value; nothing else of the world is
    changed. *)
Theorem level_follows_flag (curs : list string) (prev : string) (w : World) :
  logLevel w = logLevel (SetLevel prev w) ->
  fst (watch curs (prev, w))
  = (last curs prev, SetLevel (last curs prev) w).
Proof.
  intros H. rewrite <- (SetLevel_same prev w H) at 1. apply watch_state.
Qed.

Lemma level_follows_flag_witness :
  logLevel (Init "info" Examples.container)
  = logLevel (SetLevel "info" (Init "info" Examples.container))
  /\ fst (GetLevel
            (snd (fst (watch ["info"; "debug"; "debug"; "warn"]
                         ("info", Init "info" Examples.container)))))
     = "warn".
Proof.
  split; [reflexivity|].
  rewrite (level_follows_flag ["info"; "debug"; "debug"; "warn"] "info"
             (Init "info" Examples.container) eq_refl).
  reflexivity.
Defined.

(** When the flag changed between [logger.Init] and the first read of the
    loop, the level in force is not the one the loop remembers, and it
    stays so until the flag changes again. *)
Example level_stale :
  logLevel (snd (fst (watch ["debug"; "debug"]
                        ("debug", Init "info" Examples.container)))) = Info.
Proof. reflexivity. Qed.

End LevelWatchProperties.
